(** * Contract risk analysis: clause segmentation, role tagging and risk scoring

    A shallow embedding of the rule-based core of the contract analyser
    ([backend/nlp/extractors/clause_extractor.py],
    [backend/nlp/classifiers/contract_classifier.py] and
    [backend/llm/risk_scorer.py]) together with the properties its
    specification states about it.

    Python values are modelled as the interpreter has them: a [str] is a
    sequence of Unicode code points, a [bytes] is a sequence of bytes, an
    [int] is an unbounded integer, a
    [float] is an IEEE-754 binary64 number (the standard library's
    [spec_float]), a [dict] is a finite map from string keys to values and
    mutable objects live in a store addressed by references. *)

From Stdlib Require Import ZArith NArith List String Ascii Bool Lia QArith.
From Stdlib Require Import DecimalString Strings.Byte.
From Stdlib.Floats Require Import SpecFloat.
From stdpp Require Import gmap strings list fin_maps.

Set Default Proof Using "Type".

(* ===================================================================== *)
(** * Part I: the embedding *)
(* ===================================================================== *)

(** ** Python strings *)

Module Py.

(** A [str] is a sequence of code points. *)
Definition pystr := list N.

(** String literals of this file are UTF-8 encoded; [lit] decodes them to
    the code points the Python literal denotes. *)
Fixpoint utf8_decode (bs : list N) : pystr :=
  match bs with
  | [] => []
  | b :: r0 =>
    if (b <? 0x80)%N then b :: utf8_decode r0
    else if (b <? 0xE0)%N then
      match r0 with
      | b1 :: r1 =>
        N.lor (N.shiftl (N.land b 0x1F) 6) (N.land b1 0x3F) :: utf8_decode r1
      | [] => []
      end
    else if (b <? 0xF0)%N then
      match r0 with
      | b1 :: b2 :: r2 =>
        N.lor (N.shiftl (N.land b 0x0F) 12)
          (N.lor (N.shiftl (N.land b1 0x3F) 6) (N.land b2 0x3F))
        :: utf8_decode r2
      | _ => []
      end
    else
      match r0 with
      | b1 :: b2 :: b3 :: r3 =>
        N.lor (N.shiftl (N.land b 0x07) 18)
          (N.lor (N.shiftl (N.land b1 0x3F) 12)
             (N.lor (N.shiftl (N.land b2 0x3F) 6) (N.land b3 0x3F)))
        :: utf8_decode r3
      | _ => []
      end
  end.

Definition lit (s : string) : pystr :=
  utf8_decode (map N_of_ascii (list_ascii_of_string s)).

(** The parts of the Unicode character database that [str.lower],
    [str.isdigit] and the [re] module consult outside ASCII.  The tables
    belong to the interpreter, not to the analyser; they are a parameter
    of the development, and every statement below holds for all of them. *)
Record UnicodeData := {
  (** full lowercase mapping of a code point (used above U+007F) *)
  ucd_lower : N -> list N;
  (** the [Cased] property *)
  ucd_cased : N -> bool;
  (** the [Case_Ignorable] property *)
  ucd_case_ignorable : N -> bool;
  (** general category [Nd] (used above U+007F): regex [\d] *)
  ucd_decimal : N -> bool;
  (** [str.isdigit] (used above U+007F) *)
  ucd_digit : N -> bool
}.

(** [str.isspace] on one code point; the regex class [\s] is the same set. *)
Definition isspace (c : N) : bool :=
  ((0x09 <=? c) && (c <=? 0x0D) || (0x1C <=? c) && (c <=? 0x20)
   || (c =? 0x85) || (c =? 0xA0) || (c =? 0x1680)
   || (0x2000 <=? c) && (c <=? 0x200A)
   || (c =? 0x2028) || (c =? 0x2029) || (c =? 0x202F) || (c =? 0x205F)
   || (c =? 0x3000))%N.

Fixpoint dropwhile {A} (f : A -> bool) (l : list A) : list A :=
  match l with
  | [] => []
  | x :: l' => if f x then dropwhile f l' else l
  end.

Definition ascii_digit (c : N) : bool := ((0x30 <=? c) && (c <=? 0x39))%N.
Definition ascii_upper (c : N) : bool := ((0x41 <=? c) && (c <=? 0x5A))%N.
Definition ascii_lower (c : N) : bool := ((0x61 <=? c) && (c <=? 0x7A))%N.

Definition SIGMA : N := 0x3A3.
Definition small_sigma : N := 0x3C3.
Definition small_final_sigma : N := 0x3C2.

Section Unicode.
Context (U : UnicodeData).

Definition isdigit (c : N) : bool :=
  if (c <? 0x80)%N then ascii_digit c else ucd_digit U c.

(** U+03A3 is in final position when a cased letter precedes it and none
    follows, case-ignorable code points being skipped on both sides.
    [before] is the text to the left, nearest code point first. *)
Definition final_sigma (before after : pystr) : bool :=
  match dropwhile (ucd_case_ignorable U) before with
  | c :: _ => ucd_cased U c
  | [] => false
  end
  && match dropwhile (ucd_case_ignorable U) after with
     | [] => true
     | c :: _ => negb (ucd_cased U c)
     end.

(** Lowercase of the code point [c] standing between [before] and
    [after]. Only capital sigma depends on its neighbours. *)
Definition lower_at (before : pystr) (c : N) (after : pystr) : pystr :=
  if (c =? SIGMA)%N then
    [if final_sigma before after then small_final_sigma else small_sigma]
  else if (c <? 0x80)%N then
    [if ascii_upper c then (c + 0x20)%N else c]
  else ucd_lower U c.

Fixpoint lower_from (before s : pystr) : pystr :=
  match s with
  | [] => []
  | c :: after => lower_at before c after ++ lower_from (c :: before) after
  end.

(** [s.lower()] *)
Definition lower (s : pystr) : pystr := lower_from [] s.
End Unicode.

(** [p] is a prefix of [s]: [s.startswith(p)] *)
Fixpoint startswith (s p : pystr) {struct p} : bool :=
  match p, s with
  | [], _ => true
  | _ :: _, [] => false
  | a :: p', b :: s' => (a =? b)%N && startswith s' p'
  end.

(** [p in s] *)
Fixpoint contains (p s : pystr) : bool :=
  startswith s p
  || match s with
     | [] => false
     | _ :: s' => contains p s'
     end.

(** [any(kw in s for kw in kws)] *)
Definition any_in (kws : list pystr) (s : pystr) : bool :=
  existsb (fun kw => contains kw s) kws.

(** [s.count(p)] for a non-empty [p]: occurrences are counted left to
    right without overlap; [skip] code points of the last occurrence are
    still to be passed over. *)
Fixpoint count_from (p s : pystr) (skip : nat) : Z :=
  match s with
  | [] => 0
  | _ :: s' =>
    match skip with
    | S k => count_from p s' k
    | O => if startswith s p then 1 + count_from p s' (length p - 1)
           else count_from p s' 0
    end
  end%Z.

Definition count (s p : pystr) : Z := count_from p s 0.

(** [s.strip()] *)
Definition lstrip (s : pystr) : pystr := dropwhile isspace s.
Definition rstrip (s : pystr) : pystr := rev (dropwhile isspace (rev s)).
Definition strip (s : pystr) : pystr := rstrip (lstrip s).

(** A [bytes] is a sequence of bytes; its methods work on ASCII only. *)
Definition pybytes := list Byte.byte.

#[export] Instance byte_eq_dec : EqDecision Byte.byte := Byte.byte_eq_dec.

#[export] Instance byte_countable : Countable Byte.byte :=
  inj_countable Byte.to_N Byte.of_N Byte.of_to_N.

(** [b.lower()]: the ASCII capitals are replaced, every other byte stays. *)
Definition byte_lower (b : Byte.byte) : Byte.byte :=
  let n := Byte.to_N b in
  if ascii_upper n then default b (Byte.of_N (n + 0x20)) else b.

Definition bytes_lower (b : pybytes) : pybytes := map byte_lower b.

(** ASCII white space: space, tab, line feed, vertical tab, form feed and
    carriage return. *)
Definition byte_isspace (b : Byte.byte) : bool :=
  let n := Byte.to_N b in
  ((0x09 <=? n) && (n <=? 0x0D) || (n =? 0x20))%N.

(** [b.strip()] *)
Definition bytes_strip (b : pybytes) : pybytes :=
  rev (dropwhile byte_isspace (rev (dropwhile byte_isspace b))).

(** [len(s.split())]: the number of maximal runs of non-space code points;
    [inword] tells whether the previous code point was part of a word. *)
Fixpoint count_words (s : pystr) (inword : bool) : Z :=
  match s with
  | [] => 0
  | c :: s' =>
    if isspace c then count_words s' false
    else ((if inword then 0 else 1) + count_words s' true)%Z
  end.

(** [s.replace('\r\n', '\n')] *)
Fixpoint replace_crlf (s : pystr) : pystr :=
  match s with
  | [] => []
  | c :: r =>
    match r with
    | d :: r' =>
      if ((c =? 0x0D) && (d =? 0x0A))%N then 0x0A%N :: replace_crlf r'
      else c :: replace_crlf r
    | [] => [c]
    end
  end.

(** [str(n)] for an integer *)
Definition str_of_int (z : Z) : pystr :=
  lit (NilZero.string_of_int (Z.to_int z)).

(** The line feed, ['\n'] *)
Definition LF : pystr := [0x0A%N].

(** [s[:n]] *)
Definition slice_to (n : nat) (s : pystr) : pystr := firstn n s.

(** [len(s)] *)
Definition len (s : pystr) : Z := Z.of_nat (length s).

(** Exceptions the modelled code can raise. *)
Inductive exn :=
  | IndexError | KeyError | TypeError | ValueError | AttributeError
  | ZeroDivisionError.

Inductive result (A : Type) :=
  | Ok (a : A)
  | Raise (e : exn).
Arguments Ok {A} a.
Arguments Raise {A} e.

End Py.

Import Py.

(** ** Regular expressions: the backtracking matcher of the [re] module *)

Module Regex.

Inductive re :=
  | Eps
  | Chr (p : N -> bool)
  | Seq (r1 r2 : re)
  | Alt (r1 r2 : re)
  | Star (r : re)
  | Group (n : nat) (r : re).

(** [r+] and [r?], both greedy *)
Definition Plus (r : re) : re := Seq r (Star r).
Definition Opt (r : re) : re := Alt r Eps.

(** The matcher's state: the position reached, the text from there on and
    the spans captured so far (latest first). *)
Record mstate := {
  pos : nat;
  rest : pystr;
  caps : list (nat * (nat * nat))
}.

Definition cont := mstate -> option mstate.

(** Greedy repetition: one more iteration is tried before the
    continuation. Every iteration has to move forward, so the length of
    the remaining text bounds the number of iterations. *)
Fixpoint star (body : mstate -> cont -> option mstate) (fuel : nat)
    (st : mstate) (k : cont) : option mstate :=
  match fuel with
  | O => k st
  | S f =>
    match body st (fun st' =>
                     if (pos st <? pos st')%nat then star body f st' k
                     else None) with
    | Some r => Some r
    | None => k st
    end
  end.

(** [run r st k]: match [r] at [st], then continue with [k]; alternatives
    are tried left to right and the first success wins. *)
Fixpoint run (r : re) (st : mstate) (k : cont) : option mstate :=
  match r with
  | Eps => k st
  | Chr p =>
    match rest st with
    | c :: s' =>
      if p c then k {| pos := S (pos st); rest := s'; caps := caps st |}
      else None
    | [] => None
    end
  | Seq r1 r2 => run r1 st (fun st' => run r2 st' k)
  | Alt r1 r2 =>
    match run r1 st k with
    | Some x => Some x
    | None => run r2 st k
    end
  | Star r1 => star (run r1) (length (rest st)) st k
  | Group n r1 =>
    run r1 st (fun st' =>
      k {| pos := pos st'; rest := rest st';
           caps := (n, (pos st, pos st')) :: caps st' |})
  end.

(** Leftmost match at or after position [p]; [s] is the text from [p] on.
    The result is the start of the match and the final matcher state. *)
Fixpoint search_from (r : re) (p : nat) (s : pystr)
    : option (nat * mstate) :=
  match run r {| pos := p; rest := s; caps := [] |} Some with
  | Some st => Some (p, st)
  | None =>
    match s with
    | [] => None
    | _ :: s' => search_from r (S p) s'
    end
  end.

(** [re.search(r, text)] *)
Definition search (r : re) (text : pystr) : option (nat * mstate) :=
  search_from r 0 text.

(** [text[i:j]] *)
Definition substr (text : pystr) (i j : nat) : pystr :=
  firstn (j - i) (skipn i text).

(** The text of group [n] of a match, [None] when the group took no part. *)
Fixpoint lookup_cap (n : nat) (cs : list (nat * (nat * nat)))
    : option (nat * nat) :=
  match cs with
  | [] => None
  | (m, span) :: cs' => if (m =? n)%nat then Some span else lookup_cap n cs'
  end.

Definition group (text : pystr) (st : mstate) (n : nat) : option pystr :=
  match lookup_cap n (caps st) with
  | Some (i, j) => Some (substr text i j)
  | None => None
  end.

(** [re.split(r, text)] for a pattern with [ngroups] groups whose matches
    are never empty (both patterns of the extractor begin with a line
    feed): the pieces between the matches, each match contributing the
    text of its groups. Every match moves [last] forward, so the fuel
    [split] gives is never used up ([split_from_fuel] below). *)
Fixpoint split_from (fuel : nat) (r : re) (ngroups : nat) (text : pystr)
    (last : nat) : list (option pystr) :=
  match fuel with
  | O => [Some (skipn last text)]
  | S f =>
    match search_from r last (skipn last text) with
    | None => [Some (skipn last text)]
    | Some (s, st) =>
      Some (substr text last s)
      :: map (group text st) (seq 1 ngroups)
      ++ split_from f r ngroups text (pos st)
    end
  end.

Definition split (r : re) (ngroups : nat) (text : pystr)
    : list (option pystr) :=
  split_from (S (length text)) r ngroups text 0.

(** Character classes. Under [(?i)] a lowercase ASCII letter of the pattern
    matches both of its cases and the non-ASCII code points that fold to
    it: U+0130 and U+0131 for [i], U+017F for [s], U+212A for [k]. *)
Definition lit_ci (l c : N) : bool :=
  ((c =? l) || (c =? l - 0x20)
   || (l =? 0x69) && ((c =? 0x130) || (c =? 0x131))
   || (l =? 0x73) && (c =? 0x17F)
   || (l =? 0x6B) && (c =? 0x212A))%N.

(** [[a-z]] under [(?i)] *)
Definition letter_ci (c : N) : bool :=
  (ascii_lower c || ascii_upper c
   || (c =? 0x130) || (c =? 0x131) || (c =? 0x17F) || (c =? 0x212A))%N.

Definition is_lf (c : N) : bool := (c =? 0x0A)%N.
Definition is_dot (c : N) : bool := (c =? 0x2E)%N.

(** The literal string [s] under [(?i)] *)
Definition word_ci (s : pystr) : re :=
  fold_right (fun l r => Seq (Chr (lit_ci l)) r) Eps s.

(** [\d] *)
Definition decimal (U : UnicodeData) (c : N) : bool :=
  if (c <? 0x80)%N then ascii_digit c else ucd_decimal U c.

(** [[a-z0-9\s\(\)\-\,]] under [(?i)] *)
Definition title_char (c : N) : bool :=
  (letter_ci c || ascii_digit c || isspace c
   || (c =? 0x28) || (c =? 0x29) || (c =? 0x2D) || (c =? 0x2C))%N.

End Regex.

(** ** Floats: IEEE-754 binary64 *)

Module PyFloat.

Definition prec : Z := 53.
Definition emax : Z := 1024.

(** A number is an [int] or a [float]. *)
Inductive pynum :=
  | PInt (z : Z)
  | PFloat (f : spec_float).

(** [float(z)] *)
Definition of_int (z : Z) : spec_float := binary_normalize prec emax z 0 false.

(** The float nearest to the quotient [a / b] of two natural numbers, ties
    to even, with the sign [sign]. *)
Definition signed_quotient (sign : bool) (a b : Z) : spec_float :=
  let '(q, e, l) := SFdiv_core_binary prec emax a 0 b 0 in
  binary_round_aux prec emax sign q e l.

(** The float nearest to the quotient [a / b] of two integers: what
    [a / b] evaluates to for [int] operands, [b] not zero. *)
Definition nearest_quotient (a b : Z) : spec_float :=
  signed_quotient (xorb (a <? 0)%Z (b <? 0)%Z) (Z.abs a) (Z.abs b).

(** [a / b] on integers *)
Definition truediv (a b : Z) : result spec_float :=
  if (b =? 0)%Z then Raise ZeroDivisionError else Ok (nearest_quotient a b).

(** The integer nearest to [n / d], ties to even ([n >= 0], [d > 0]). *)
Definition nearest_even (n d : Z) : Z :=
  let q := (n / d)%Z in
  match (2 * (n mod d) ?= d)%Z with
  | Lt => q
  | Gt => (q + 1)%Z
  | Eq => if Z.even q then q else (q + 1)%Z
  end.

(** [round(x, ndigits)] for a float and [ndigits >= 0]: the exact value of
    [x] is rounded, ties to even, to a multiple of [10 ** -ndigits], and the
    float nearest to that decimal is returned. *)
Definition round_float (x : spec_float) (ndigits : nat) : spec_float :=
  match x with
  | S754_finite s m e =>
    let p := (10 ^ Z.of_nat ndigits)%Z in
    let k := match e with
             | Zneg sh => nearest_even (Zpos m * p) (2 ^ Zpos sh)
             | _ => (Zpos m * 2 ^ e * p)%Z
             end in
    signed_quotient s k p
  | _ => x
  end.

(** [round(v, ndigits)]: an [int] is returned unchanged for [ndigits >= 0] *)
Definition round (v : pynum) (ndigits : nat) : pynum :=
  match v with
  | PInt z => PInt z
  | PFloat f => PFloat (round_float f ndigits)
  end.

(** [v >= n] for an integer constant [n] that a float represents exactly *)
Definition ge_int (v : pynum) (n : Z) : bool :=
  match v with
  | PInt z => (n <=? z)%Z
  | PFloat f => SFleb (of_int n) f
  end.

(** The rational a finite float denotes. *)
Definition value (f : spec_float) : Q :=
  match f with
  | S754_finite s m e =>
    let a := if s then Zneg m else Zpos m in
    match e with
    | Zneg sh => Qmake a (2 ^ sh)%positive
    | _ => inject_Z (a * 2 ^ e)
    end
  | _ => 0%Q
  end.

End PyFloat.

Import Regex PyFloat.

(** ** Values, objects and the store *)

Module Store.

Definition loc := nat.

(** Immutable values are held directly; a mutable object is held through
    a reference into the store. *)
Inductive pyval :=
  | VNone
  | VBool (b : bool)
  | VInt (z : Z)
  | VFloat (f : spec_float)
  | VStr (s : pystr)
  | VBytes (b : pybytes)
  | VRef (l : loc).

Inductive pyobj :=
  | ODict (d : gmap string pyval)
  | OList (vs : list pyval).

Abbreviation heap := (gmap loc pyobj).

(** Computations that read and update the store and may raise. *)
Definition M (A : Type) : Type := heap -> result (A * heap).

Definition ret {A} (a : A) : M A := fun h => Ok (a, h).

Definition raise {A} (e : exn) : M A := fun _ => Raise e.

Definition bind {A B} (m : M A) (k : A -> M B) : M B :=
  fun h =>
    match m h with
    | Ok (a, h') => k a h'
    | Raise e => Raise e
    end.

Notation "'let*' x ':=' m 'in' k" := (bind m (fun x => k))
  (at level 10, x name, m at level 100, k at level 200).

(** [v == s] for a string [s] *)
Definition eq_str (v : pyval) (s : pystr) : bool :=
  match v with
  | VStr t => bool_decide (t = s)
  | _ => false
  end.

(** Iterating [for x in v]: the elements of the list [v] refers to. The
    clause list is annotated [List[Dict]]; this and the next operations
    raise on a value of another type. *)
Definition elements (v : pyval) : M (list pyval) :=
  fun h =>
    match v with
    | VRef l =>
      match h !! l with
      | Some (OList vs) => Ok (vs, h)
      | _ => Raise TypeError
      end
    | _ => Raise TypeError
    end.

(** [v[key]] *)
Definition getitem (v : pyval) (key : string) : M pyval :=
  fun h =>
    match v with
    | VRef l =>
      match h !! l with
      | Some (ODict d) =>
        match d !! key with
        | Some x => Ok (x, h)
        | None => Raise KeyError
        end
      | _ => Raise TypeError
      end
    | _ => Raise TypeError
    end.

(** [v.get(key)] *)
Definition get (v : pyval) (key : string) : M pyval :=
  fun h =>
    match v with
    | VRef l =>
      match h !! l with
      | Some (ODict d) => Ok (default VNone (d !! key), h)
      | _ => Raise AttributeError
      end
    | _ => Raise AttributeError
    end.

(** [v[key] = x]: the dict [v] refers to is updated in place. *)
Definition setitem (v : pyval) (key : string) (x : pyval) : M unit :=
  fun h =>
    match v with
    | VRef l =>
      match h !! l with
      | Some (ODict d) => Ok (tt, <[l := ODict (<[key := x]> d)]> h)
      | _ => Raise TypeError
      end
    | _ => Raise TypeError
    end.

End Store.

Import Store.

(** ** [RiskScorer] *)

Module RiskScorer.

Local Open Scope Z_scope.

Definition HIGH_RISK_THRESHOLD : Z := 70.
Definition MEDIUM_RISK_THRESHOLD : Z := 40.

Inductive risk_level := low | medium | high.

#[export] Instance risk_level_eq_dec : EqDecision risk_level.
Proof. solve_decision. Defined.

(** The string a level is in the program. *)
Definition level_str (l : risk_level) : pystr :=
  match l with
  | low => lit "low"
  | medium => lit "medium"
  | high => lit "high"
  end.

Record risk_pattern := {
  keywords : list pystr;
  weight : Z;
  description : pystr
}.

(** The pattern table, in the order the dict literal lists it. *)
Definition _get_risk_patterns : list (pystr * risk_pattern) :=
  [ (lit "unilateral_termination",
     {| keywords := [lit "may terminate"; lit "right to terminate";
                     lit "terminate at will"; lit "terminate without cause";
                     lit "sole discretion"];
        weight := 30;
        description := lit "One-sided termination rights (may be void per Indian Contract Act if arbitrary)" |});
    (lit "uncapped_liability",
     {| keywords := [lit "unlimited liability"; lit "no limit";
                     lit "without limitation"; lit "liable for all";
                     lit "indemnify against all"];
        weight := 35;
        description := lit "Unlimited liability exposure" |});
    (lit "auto_renewal_lock_in",
     {| keywords := [lit "automatically renew"; lit "auto-renewal";
                     lit "lock-in period"; lit "cannot terminate during"];
        weight := 20;
        description := lit "Auto-renewal or Lock-in period (check if > 3 years)" |});
    (lit "penalty_high",
     {| keywords := [lit "penalty"; lit "liquidated damages"; lit "forfeit";
                     lit "pay as damages"];
        weight := 25;
        description := lit "Penalty clause (Indian courts distinguish between reasonable compensation and penalty)" |});
    (lit "non_compete_excessive",
     {| keywords := [lit "non-compete"; lit "shall not compete";
                     lit "restrictive covenant"; lit "after termination"];
        weight := 30;
        description := lit "Post-termination non-compete (Often void in India under Sec 27 unless reasonable)" |});
    (lit "ip_transfer",
     {| keywords := [lit "transfer of intellectual property";
                     lit "ip rights transfer"; lit "ownership of all work";
                     lit "work for hire"];
        weight := 25;
        description := lit "Intellectual property transfer" |});
    (lit "foreign_jurisdiction",
     {| keywords := [lit "courts of singapore"; lit "courts of london";
                     lit "exclusive jurisdiction of"; lit "outside india"];
        weight := 40;
        description := lit "Foreign Jurisdiction (High cost/risk for Indian SME)" |});
    (lit "arbitration_cost",
     {| keywords := [lit "arbitration in london";
                     lit "singapore international arbitration";
                     lit "icc rules"];
        weight := 35;
        description := lit "High-cost International Arbitration" |});
    (lit "ambiguous_terms",
     {| keywords := [lit "reasonable"; lit "best efforts";
                     lit "as soon as possible"; lit "appropriate"];
        weight := 10;
        description := lit "Ambiguous or vague terms" |}) ].

(** A flag: [{'type': ..., 'description': ...}] *)
Record flag := {
  flag_type : pystr;
  flag_description : pystr
}.

(** The result of [score_clause]: [{'score', 'level', 'flags'}] *)
Record clause_risk := {
  score : Z;
  level : risk_level;
  flags : list flag
}.

(** The level of a score, an [int] or a [float], by the two thresholds. *)
Definition level_of (v : pynum) : risk_level :=
  if ge_int v HIGH_RISK_THRESHOLD then high
  else if ge_int v MEDIUM_RISK_THRESHOLD then medium
  else low.

(** One round of the loop over the pattern table. *)
Definition scan_pattern (clause_lower : pystr) (acc : Z * list flag)
    (entry : pystr * risk_pattern) : Z * list flag :=
  let '(score, flags) := acc in
  let '(pattern_name, pattern_info) := entry in
  if any_in (keywords pattern_info) clause_lower then
    (score + weight pattern_info,
     if 25 <=? weight pattern_info then
       flags ++ [{| flag_type := pattern_name;
                    flag_description := description pattern_info |}]
     else flags)
  else (score, flags).

(** The result of [score_contract] *)
Record contract_risk := {
  composite_score : pynum;
  risk_level_of : risk_level;
  risk_flags : list flag;
  clause_count : Z;
  high_risk_clauses : Z
}.

(** [sum(xs)] *)
Definition sum (xs : list Z) : Z := fold_left Z.add xs 0.

(** The loop of [score_clause] on a [bytes] text: the test
    [keyword in clause_lower] of a [str] keyword against a [bytes] raises
    [TypeError], and it is made for the first keyword the loop meets;
    a pattern without keywords is passed over. *)
Fixpoint scan_bytes (patterns : list (pystr * risk_pattern)) : result unit :=
  match patterns with
  | [] => Ok tt
  | (_, pattern_info) :: rest =>
    match keywords pattern_info with
    | [] => scan_bytes rest
    | _ :: _ => Raise TypeError
    end
  end.

Section Scorer.
Context (U : UnicodeData).

Definition score_clause (clause_text contract_type : pystr) : clause_risk :=
  let clause_lower := lower U clause_text in
  let '(score, flags) :=
    fold_left (scan_pattern clause_lower) _get_risk_patterns (0, []) in
  let score := Z.min score 100 in
  {| score := score; level := level_of (PInt score); flags := flags |}.

(** [score_clause] on the value a clause holds as its text. A [str] is
    scored as above. A [bytes] has [lower] too and so reaches the loop over
    the patterns. Any other value has no [lower]. *)
Definition score_clause_value (clause_text : pyval) (contract_type : pystr)
    : M clause_risk :=
  match clause_text with
  | VStr s => ret (score_clause s contract_type)
  | VBytes _ =>
    match scan_bytes _get_risk_patterns with
    | Ok _ =>
      let score := Z.min 0 100 in
      ret {| score := score; level := level_of (PInt score); flags := [] |}
    | Raise e => raise e
    end
  | _ => raise AttributeError
  end.

(** The loop of [score_contract] over the clause list. *)
Fixpoint score_each (contract_type : pystr) (clauses : list pyval)
    (clause_scores : list Z) (risk_flags : list flag)
    : M (list Z * list flag) :=
  match clauses with
  | [] => ret (clause_scores, risk_flags)
  | clause :: clauses' =>
    let* text := getitem clause "text" in
    let* risk_result := score_clause_value text contract_type in
    let* _ := setitem clause "risk_score" (VInt (score risk_result)) in
    let* _ := setitem clause "risk_level"
                (VStr (level_str (level risk_result))) in
    let clause_scores := clause_scores ++ [score risk_result] in
    let risk_flags :=
      if decide (level risk_result = high)
      then risk_flags ++ flags risk_result
      else risk_flags in
    score_each contract_type clauses' clause_scores risk_flags
  end.

(** [sum(1 for c in clauses if c.get('risk_level') == 'high')] *)
Fixpoint count_high (clauses : list pyval) : M Z :=
  match clauses with
  | [] => ret 0
  | c :: clauses' =>
    let* v := get c "risk_level" in
    let* n := count_high clauses' in
    ret ((if eq_str v (lit "high") then 1 else 0) + n)
  end.

Definition score_contract (contract_type : pystr) (clauses : pyval)
    : M contract_risk :=
  let* cs := elements clauses in
  let* scored := score_each contract_type cs [] [] in
  let '(clause_scores, risk_flags) := scored in
  let* composite_score :=
    match clause_scores with
    | [] => ret (PInt 0)
    | _ :: _ =>
      match truediv (sum clause_scores) (Z.of_nat (length clause_scores)) with
      | Ok f => ret (PFloat f)
      | Raise e => raise e
      end
    end in
  let risk_level := level_of composite_score in
  let* n_high := count_high cs in
  ret {| composite_score := round composite_score 2;
         risk_level_of := risk_level;
         risk_flags := risk_flags;
         clause_count := Z.of_nat (length cs);
         high_risk_clauses := n_high |}.
End Scorer.

End RiskScorer.

(** ** [ClauseExtractor] *)

Module ClauseExtractor.

(** The role of a clause: the string [_classify_clause] returns. *)
Inductive role :=
  | Prohibition | Obligation | Right | Condition | Defining | General.

Definition role_str (r : role) : pystr :=
  match r with
  | Prohibition => lit "prohibition"
  | Obligation => lit "obligation"
  | Right => lit "right"
  | Condition => lit "condition"
  | Defining => lit "definition"
  | General => lit "general"
  end.

Definition obligation_keywords : list pystr :=
  [lit "shall"; lit "must"; lit "required to"; lit "obligated to";
   lit "agrees to";
   lit "करना होगा"; lit "बाध्य है"; lit "अनिवार्य"; lit "जिम्मेदारी"].

Definition right_keywords : list pystr :=
  [lit "may"; lit "entitled to"; lit "has the right"; lit "can";
   lit "permitted to";
   lit "अधिकार है"; lit "सकता है"; lit "अनुमति"; lit "स्वतंत्र है"].

Definition prohibition_keywords : list pystr :=
  [lit "shall not"; lit "must not"; lit "prohibited from"; lit "may not";
   lit "forbidden to";
   lit "नहीं करेगा"; lit "वर्जित"; lit "निषेध"; lit "प्रतिबंधित"; lit "मना है"].

Definition condition_keywords : list pystr :=
  [lit "if"; lit "provided that"; lit "subject to"; lit "in the event";
   lit "यदि"; lit "बशर्ते"; lit "की स्थिति में"; lit "अधीन"].

Definition definition_keywords : list pystr :=
  [lit "means"; lit "refers to"; lit "defined as"; lit "definition";
   lit "का अर्थ"; lit "तत्पर्य"; lit "परिभाषा"].

(** [r'\n\s*\n'] *)
Definition paragraph_pattern : re :=
  Seq (Chr is_lf) (Seq (Star (Chr isspace)) (Chr is_lf)).

(** A clause under construction: [{'header', 'text', 'full_text'}] *)
Definition new_clause (header text full_text : pystr) : gmap string pyval :=
  <["full_text" := VStr full_text]>
    (<["text" := VStr text]> (<["header" := VStr header]> ∅)).

Section Extractor.
Context (U : UnicodeData).

(** [\d+(\.\d+)*\.?\s+[a-z][a-z0-9\s\(\)\-\,]+] *)
Definition numbered_heading : re :=
  Seq (Plus (Chr (decimal U)))
    (Seq (Star (Group 2 (Seq (Chr is_dot) (Plus (Chr (decimal U))))))
       (Seq (Opt (Chr is_dot))
          (Seq (Plus (Chr isspace))
             (Seq (Chr letter_ci) (Plus (Chr title_char)))))).

(** [article\s+\d+] *)
Definition article_heading : re :=
  Seq (word_ci (lit "article"))
    (Seq (Plus (Chr isspace)) (Plus (Chr (decimal U)))).

(** [(?i)\n(\d+(\.\d+)*\.?\s+[a-z][a-z0-9\s\(\)\-\,]+|article\s+\d+)\n] *)
Definition clause_header_pattern : re :=
  Seq (Chr is_lf)
    (Seq (Group 1 (Alt numbered_heading article_heading)) (Chr is_lf)).

Definition _classify_clause (text : pystr) : role :=
  let text_lower := lower U text in
  if any_in prohibition_keywords text_lower then Prohibition
  else if any_in obligation_keywords text_lower then Obligation
  else if any_in right_keywords text_lower then Right
  else if any_in condition_keywords text_lower then Condition
  else if any_in definition_keywords text_lower then Defining
  else General.

(** The loop of [_process_numbered_sections]; a group that took no part
    in a match is [None] in the list [re.split] returns. *)
Fixpoint numbered_sections_loop (sections : list (option pystr))
    (current_header : pystr) (clauses : list (gmap string pyval))
    : result (list (gmap string pyval)) :=
  match sections with
  | [] => Ok clauses
  | None :: rest | Some [] :: rest =>
    numbered_sections_loop rest current_header clauses
  | Some part :: rest =>
    let part := strip part in
    let is_header :=
      if (len part <? 100)%Z then
        match part with
        | [] => Raise IndexError
        | c :: _ =>
          Ok (isdigit U c || startswith (lower U part) (lit "article"))
        end
      else Ok false in
    match is_header with
    | Raise e => Raise e
    | Ok true => numbered_sections_loop rest part clauses
    | Ok false =>
      if (20 <? len part)%Z then
        numbered_sections_loop rest current_header
          (clauses ++ [new_clause current_header part
                         (current_header ++ LF ++ part)])
      else numbered_sections_loop rest current_header clauses
    end
  end.

Definition _process_numbered_sections (sections : list (option pystr))
    : result (list (gmap string pyval)) :=
  numbered_sections_loop sections (lit "General") [].

(** The loop of [_process_paragraphs]; the pattern has no group, so every
    element of the list [re.split] returns is a string. *)
Fixpoint paragraphs_loop (paragraphs : list (option pystr))
    (clauses : list (gmap string pyval))
    : result (list (gmap string pyval)) :=
  match paragraphs with
  | [] => Ok clauses
  | None :: _ => Raise AttributeError
  | Some para :: rest =>
    let para := strip para in
    if (20 <? len para)%Z then
      paragraphs_loop rest
        (clauses ++ [new_clause
                       (if (50 <? len para)%Z
                        then slice_to 50 para ++ lit "..."
                        else para)
                       para para])
    else paragraphs_loop rest clauses
  end.

Definition _process_paragraphs (text : pystr)
    : result (list (gmap string pyval)) :=
  paragraphs_loop (split paragraph_pattern 0 text) [].

(** The last loop of [extract]: [i] is the index of the first clause
    of [clauses]. The text of a clause is a [str] when the loops above
    have built it; on a [bytes] the first keyword test of
    [_classify_clause] would raise [TypeError], and any other value has
    no [lower]. *)
Fixpoint classify_each (i : Z) (clauses : list (gmap string pyval))
    : result (list (gmap string pyval)) :=
  match clauses with
  | [] => Ok []
  | clause :: rest =>
    match clause !! "text" with
    | Some (VStr text) =>
      let clause :=
        <["word_count" := VInt (count_words text false)]>
          (<["type" := VStr (role_str (_classify_clause text))]>
             (<["id" := VStr (lit "clause_" ++ str_of_int (i + 1))]>
                clause)) in
      match classify_each (i + 1) rest with
      | Ok rest' => Ok (clause :: rest')
      | Raise e => Raise e
      end
    | Some (VBytes _) => Raise TypeError
    | Some _ => Raise AttributeError
    | None => Raise KeyError
    end
  end.

Definition extract (text : pystr) : result (list (gmap string pyval)) :=
  let text := replace_crlf text in
  let sections := split clause_header_pattern 2 text in
  match (if (2 <? length sections)%nat
         then _process_numbered_sections sections
         else Ok []) with
  | Raise e => Raise e
  | Ok clauses =>
    match (if (length clauses <? 2)%nat then _process_paragraphs text
           else Ok clauses) with
    | Raise e => Raise e
    | Ok clauses => classify_each 0 clauses
    end
  end.
End Extractor.

End ClauseExtractor.

(** ** [ContractClassifier] *)

Module ContractClassifier.

Local Open Scope Z_scope.

Definition type_keywords : list (pystr * list pystr) :=
  [ (lit "employment",
     [lit "employment"; lit "employee"; lit "employer"; lit "salary";
      lit "wages"; lit "job title"; lit "position";
      lit "employment agreement"; lit "work hours"; lit "leave";
      lit "resignation"; lit "termination of employment"]);
    (lit "vendor",
     [lit "vendor"; lit "supplier"; lit "purchase"; lit "procurement";
      lit "delivery"; lit "goods"; lit "services"; lit "purchase order";
      lit "vendor agreement"; lit "supply"; lit "shipment"]);
    (lit "lease",
     [lit "lease"; lit "rent"; lit "tenant"; lit "landlord"; lit "premises";
      lit "property"; lit "rental"; lit "lease agreement"; lit "lease term";
      lit "security deposit"; lit "maintenance"; lit "lease renewal"]);
    (lit "partnership",
     [lit "partnership"; lit "partners"; lit "profit sharing";
      lit "capital contribution"; lit "partnership agreement";
      lit "joint venture"; lit "partnership deed"; lit "profit and loss";
      lit "partnership business"]);
    (lit "service",
     [lit "service agreement"; lit "professional services"; lit "consulting";
      lit "contractor"; lit "independent contractor"; lit "scope of work";
      lit "deliverables"; lit "service provider"; lit "client";
      lit "project"]) ].

(** The score of one contract type: occurrences of its keywords. *)
Definition type_score (text_lower : pystr) (keywords : list pystr) : Z :=
  fold_left (fun score keyword => score + count text_lower keyword)
    keywords 0.

(** The first entry with the largest score. *)
Fixpoint argmax (best : pystr * Z) (scores : list (pystr * Z)) : pystr * Z :=
  match scores with
  | [] => best
  | (k, v) :: rest => argmax (if snd best <? v then (k, v) else best) rest
  end.

(** [max(scores, key=scores.get)] *)
Definition max_key (scores : list (pystr * Z)) : result pystr :=
  match scores with
  | [] => Raise ValueError
  | first :: rest => Ok (fst (argmax first rest))
  end.

(** [max(scores.values())] *)
Definition max_value (scores : list (pystr * Z)) : result Z :=
  match scores with
  | [] => Raise ValueError
  | first :: rest => Ok (fold_left Z.max (map snd rest) (snd first))
  end.

Section Classifier.
Context (U : UnicodeData).

Definition classify (text : pystr) : result pystr :=
  let text_lower := lower U text in
  let scores :=
    map (fun entry => (fst entry, type_score text_lower (snd entry)))
      type_keywords in
  match max_value scores with
  | Raise e => Raise e
  | Ok m => if 0 <? m then max_key scores else Ok (lit "general")
  end.
End Classifier.

End ContractClassifier.

(** ** [ContractClassifier.get_confidence] *)

Module Confidence.
Import ContractClassifier.
Local Open Scope Z_scope.

(** [{k: v/total for k, v in scores.items()}] *)
Fixpoint normalized (scores : list (pystr * Z)) (total : Z)
    : result (list (pystr * pynum)) :=
  match scores with
  | [] => Ok []
  | (k, v) :: rest =>
    match truediv v total with
    | Raise e => Raise e
    | Ok f =>
      match normalized rest total with
      | Raise e => Raise e
      | Ok rest' => Ok ((k, PFloat f) :: rest')
      end
    end
  end.

Section Confidence.
Context (U : UnicodeData).

(** The dict [scores] both methods of the classifier build, in the order
    of the table. *)
Definition type_scores (text : pystr) : list (pystr * Z) :=
  let text_lower := lower U text in
  map (fun entry => (fst entry, type_score text_lower (snd entry)))
    type_keywords.

Definition get_confidence (text : pystr) : result (list (pystr * pynum)) :=
  let scores := type_scores text in
  let total := RiskScorer.sum (map snd scores) in
  if 0 <? total then normalized scores total
  else Ok (map (fun kv => (fst kv, PInt (snd kv))) scores).
End Confidence.

End Confidence.

(** ** [EntityExtractor._deduplicate_entities] *)

Module EntityExtractor.

(** What the set [seen] holds: a [str] or a [bytes], which are never
    equal to one another. *)
Definition text_key : Type := pystr + pybytes.

(** [if text]: a string or a bytes is true when it is not empty. *)
Definition key_truthy (text : text_key) : bool :=
  match text with
  | inl [] | inr [] => false
  | _ => true
  end.

Section Dedup.
Context (U : UnicodeData).

(** [v.lower().strip()]: both [str] and [bytes] have the two methods. *)
Definition lower_strip (v : pyval) : result text_key :=
  match v with
  | VStr s => Ok (inl (strip (lower U s)))
  | VBytes b => Ok (inr (bytes_strip (bytes_lower b)))
  | _ => Raise AttributeError
  end.

(** The loop of [_deduplicate_entities]: [seen] is the set of the texts
    met so far, [unique] the entities kept. An entity without ['text']
    counts as one with the empty text. *)
Fixpoint deduplicate_loop (entities : list (gmap string pyval))
    (seen : gset text_key) (unique : list (gmap string pyval))
    : result (list (gmap string pyval)) :=
  match entities with
  | [] => Ok unique
  | entity :: rest =>
    match lower_strip (default (VStr []) (entity !! "text")) with
    | Ok text =>
      if key_truthy text && bool_decide (text ∉ seen) then
        deduplicate_loop rest ({[text]} ∪ seen) (unique ++ [entity])
      else deduplicate_loop rest seen unique
    | Raise e => Raise e
    end
  end.

Definition _deduplicate_entities (entities : list (gmap string pyval))
    : result (list (gmap string pyval)) :=
  deduplicate_loop entities ∅ [].
End Dedup.

End EntityExtractor.

(** ** [routes/upload.py]: [allowed_file] *)

Module Upload.

Definition DOT : N := 0x2E.

Definition ALLOWED_EXTENSIONS : gset pystr :=
  {[ lit "pdf"; lit "docx"; lit "txt" ]}.

(** The text before and the text after the last dot of [s]. *)
Fixpoint split_last_dot (s : pystr) : option (pystr * pystr) :=
  match s with
  | [] => None
  | c :: s' =>
    match split_last_dot s' with
    | Some (before, after) => Some (c :: before, after)
    | None => if (c =? DOT)%N then Some ([], s') else None
    end
  end.

(** [s.rsplit('.', 1)] *)
Definition rsplit_dot (s : pystr) : list pystr :=
  match split_last_dot s with
  | Some (before, after) => [before; after]
  | None => [s]
  end.

Section Upload.
Context (U : UnicodeData).

Definition allowed_file (filename : pystr) : result bool :=
  if contains [DOT] filename then
    match rsplit_dot filename !! 1%nat with
    | Some ext => Ok (bool_decide (lower U ext ∈ ALLOWED_EXTENSIONS))
    | None => Raise IndexError
    end
  else Ok false.
End Upload.

End Upload.

(** ** [Explainer]: reading lists out of a reply *)

Module Explainer.

(** [s.split('\n')] *)
Fixpoint split_lines (s : pystr) : list pystr :=
  match s with
  | [] => [[]]
  | c :: s' =>
    if (c =? 0x0A)%N then [] :: split_lines s'
    else match split_lines s' with
         | line :: lines => (c :: line) :: lines
         | [] => [[c]]
         end
  end.

(** [s.strip(chars)] *)
Definition strip_chars (chars s : pystr) : pystr :=
  let drop := fun c => bool_decide (c ∈ chars) in
  rev (dropwhile drop (rev (dropwhile drop s))).

(** [line.strip('- ').strip()] *)
Definition item (line : pystr) : pystr := strip (strip_chars (lit "- ") line).

(** A string is true when it is not empty. *)
Definition truthy (s : pystr) : bool :=
  match s with
  | [] => false
  | _ :: _ => true
  end.

(** A list is true when it is not empty. *)
Definition truthy_list {A} (l : list A) : bool :=
  match l with
  | [] => false
  | _ :: _ => true
  end.

Definition default_recommendations : list pystr :=
  [lit "Review high-risk clauses with legal counsel";
   lit "Negotiate unfavorable terms before signing";
   lit "Keep detailed records of all obligations"].

Section Explainer.
Context (U : UnicodeData).

(** The loop of [_extract_recommendations] and of
    [_extract_alternatives]: a line with one of the [markers] opens the
    list, every later line that is not blank is an item. *)
Fixpoint items_after (markers : list pystr) (lines : list pystr)
    (opened : bool) (found : list pystr) : list pystr :=
  match lines with
  | [] => found
  | line :: rest =>
    if any_in markers (lower U line) then items_after markers rest true found
    else if opened && truthy (strip line) then
      items_after markers rest opened (found ++ [item line])
    else items_after markers rest opened found
  end.

Definition _extract_recommendations (text : pystr) : list pystr :=
  let recommendations :=
    items_after [lit "recommendation"] (split_lines text) false [] in
  if truthy_list recommendations then firstn 3 recommendations
  else default_recommendations.

(** The loop of [_extract_concerns] *)
Fixpoint concern_lines (lines : list pystr) (concerns : list pystr)
    : list pystr :=
  match lines with
  | [] => concerns
  | line :: rest =>
    if contains (lit "concern") (lower U line)
       || contains (lit "risk") (lower U line)
    then concern_lines rest (concerns ++ [item line])
    else concern_lines rest concerns
  end.

Definition _extract_concerns (text : pystr) : list pystr :=
  firstn 3 (concern_lines (split_lines text) []).

Definition _extract_alternatives (text : pystr) : list pystr :=
  firstn 2 (items_after [lit "alternative"; lit "suggest"]
              (split_lines text) false []).
End Explainer.

End Explainer.

(** ** [DocumentParser] *)

Module DocumentParser.
Local Open Scope Z_scope.

(** [{'success': True, 'text': ...}] or [{'success': False, 'error': ...}] *)
Inductive parsed :=
  | Success (text : pystr)
  | Failure (error : pystr).

(** What [file.read()] gives under an encoding: the text, a
    [UnicodeDecodeError], or another exception with its message. *)
Inductive read_result :=
  | Read (text : pystr)
  | DecodeError
  | ReadFailed (message : pystr).

(** What a library call gives: its result, or an exception with its
    message. *)
Inductive loaded (A : Type) :=
  | Loaded (a : A)
  | LoadFailed (message : pystr).
Arguments Loaded {A} a.
Arguments LoadFailed {A} message.

(** The files as the parser sees them: the text of a file read as UTF-8
    and as Latin-1, the paragraph texts [python-docx] finds, and what
    [extract_text] returns for each page [PyPDF2] finds. *)
Record files := {
  read_utf8 : pystr -> read_result;
  read_latin1 : pystr -> loaded pystr;
  docx_paragraphs : pystr -> loaded (list pystr);
  pdf_pages : pystr -> loaded (list (option pystr))
}.

(** [sep.join(parts)] *)
Fixpoint join (sep : pystr) (parts : list pystr) : pystr :=
  match parts with
  | [] => []
  | [part] => part
  | part :: rest => part ++ sep ++ join sep rest
  end.

(** The loop of [_parse_pdf] over the pages: a page without text adds
    nothing. *)
Fixpoint page_texts (pages : list (option pystr)) (text : pystr) : pystr :=
  match pages with
  | [] => text
  | Some (c :: page_text) :: rest =>
    page_texts rest (text ++ (c :: page_text) ++ LF ++ LF)
  | _ :: rest => page_texts rest text
  end.

Section Parser.
Context (F : files).

Definition _parse_pdf (filepath : pystr) : parsed :=
  match pdf_pages F filepath with
  | Loaded pages =>
    if (Z.of_nat (length pages) =? 0) then Failure (lit "PDF has no pages")
    else
      let text := page_texts pages [] in
      if len (strip text) <? 100 then
        Failure (lit "PDF appears to be scanned/image-based. Only text-based PDFs are supported.")
      else Success (strip text)
  | LoadFailed message => Failure (lit "PDF parsing failed: " ++ message)
  end.

Definition _parse_docx (filepath : pystr) : parsed :=
  match docx_paragraphs F filepath with
  | Loaded paragraphs =>
    let text :=
      join (LF ++ LF)
        (List.filter (fun para => match strip para with
                                  | [] => false
                                  | _ :: _ => true
                                  end) paragraphs) in
    if len (strip text) <? 10 then
      Failure (lit "DOCX appears to be empty or unreadable")
    else Success (strip text)
  | LoadFailed message => Failure (lit "DOCX parsing failed: " ++ message)
  end.

Definition _parse_txt (filepath : pystr) : parsed :=
  match read_utf8 F filepath with
  | Read text =>
    if len (strip text) <? 10 then
      Failure (lit "Text file appears to be empty")
    else Success (strip text)
  | DecodeError =>
    match read_latin1 F filepath with
    | Loaded text => Success (strip text)
    | LoadFailed message =>
      Failure (lit "Text file encoding error: " ++ message)
    end
  | ReadFailed message =>
    Failure (lit "Text file parsing failed: " ++ message)
  end.

Definition parse (filepath file_extension : pystr) : parsed :=
  if bool_decide (file_extension = lit "pdf") then _parse_pdf filepath
  else if bool_decide (file_extension = lit "docx") then _parse_docx filepath
  else if bool_decide (file_extension = lit "txt") then _parse_txt filepath
  else Failure (lit "Unsupported format: " ++ file_extension).
End Parser.

End DocumentParser.

(** ** Vocabulary of the statements *)

(** The two lowercase forms of sigma: the only code points whose choice
    depends on the neighbours of the letter they come from. *)
Definition sigma_form (c : N) : bool :=
  ((c =? small_sigma) || (c =? small_final_sigma))%N.

Definition sigma_free (s : pystr) : bool :=
  forallb (fun c => negb (sigma_form c)) s.

(** Equal up to the form of sigma. *)
Definition alike (x y : N) : Prop :=
  x = y \/ (sigma_form x = true /\ sigma_form y = true).

(** [lower_from] with the text that follows [s] made explicit. *)
Fixpoint lower_in (U : UnicodeData) (before s after : pystr) : pystr :=
  match s with
  | [] => []
  | c :: s' =>
    lower_at U before c (s' ++ after) ++ lower_in U (c :: before) s' after
  end.

(** Code points without case: ASCII apart, the text holds no capital
    sigma and nothing the tables change. *)
Definition caseless (U : UnicodeData) (s : pystr) : Prop :=
  Forall (fun c => (c <? 0x80)%N = true
                   \/ ((c =? SIGMA)%N = false /\ ucd_lower U c = [c])) s.

Module MatcherStates.
(** A state reached from [st]: not before it, within the same text. *)
Definition reached (st st' : mstate) : Prop :=
  (pos st <= pos st')%nat
  /\ (pos st' + length (rest st') = pos st + length (rest st))%nat.

(** A successful run has called its continuation at a reached state. *)
Definition forward (m : mstate -> cont -> option mstate) : Prop :=
  forall st k res, m st k = Some res ->
  exists st', reached st st' /\ k st' = Some res.

End MatcherStates.

#[export] Instance spec_float_eq_dec : EqDecision spec_float.
Proof. solve_decision. Defined.

#[export] Instance pyval_eq_dec : EqDecision pyval.
Proof. solve_decision. Defined.

Module ScoredStore.
Import RiskScorer.

(** The flag of a table entry. *)
Definition flag_of (entry : pystr * risk_pattern) : flag :=
  {| flag_type := fst entry; flag_description := description (snd entry) |}.

(** The entries of the table a lowercased text fires. *)
Definition fired (clause_lower : pystr) (entry : pystr * risk_pattern)
    : bool :=
  any_in (keywords (snd entry)) clause_lower.

(** An entry is high-impact from weight 25 on. *)
Definition high_impact (entry : pystr * risk_pattern) : bool :=
  (25 <=? weight (snd entry))%Z.

(** The text of the clause [v] refers to, when it is a dict whose
    ['text'] is a string. *)
Definition text_of (h : heap) (v : pyval) : option pystr :=
  match v with
  | VRef l =>
    match h !! l with
    | Some (ODict d) =>
      match d !! "text" with
      | Some (VStr t) => Some t
      | _ => None
      end
    | _ => None
    end
  | _ => None
  end.

(** [clauses] refers to a list whose elements are clause dicts with
    the texts [texts], in order. *)
Definition clause_list (h : heap) (clauses : pyval) (vs : list pyval)
    (texts : list pystr) : Prop :=
  exists l, clauses = VRef l /\ h !! l = Some (OList vs)
            /\ Forall2 (fun v t => text_of h v = Some t) vs texts.

(** The flags [score_contract] keeps of one clause. *)
Definition high_flags (r : clause_risk) : list flag :=
  if decide (level r = high) then flags r else [].

Definition is_high (r : clause_risk) : bool := bool_decide (level r = high).

(** The value of [composite_score] before it is rounded. *)
Definition mean (scores : list Z) : pynum :=
  match scores with
  | [] => PInt 0
  | _ :: _ =>
    PFloat (nearest_quotient (sum scores) (Z.of_nat (length scores)))
  end.

Section Annotate.
Context (U : UnicodeData) (contract_type : pystr).

(** A clause dict with its two risk fields set from its text. *)
Definition scored (d : gmap string pyval) (t : pystr)
    : gmap string pyval :=
  let r := score_clause U t contract_type in
  <["risk_level" := VStr (level_str (level r))]>
    (<["risk_score" := VInt (score r)]> d).

Definition annotated (o : pyobj) : pyobj :=
  match o with
  | ODict d =>
    match d !! "text" with
    | Some (VStr t) => ODict (scored d t)
    | _ => o
    end
  | OList _ => o
  end.

(** The store after the clause [v] refers to has been scored. *)
Definition annotate (h : heap) (v : pyval) : heap :=
  match v with
  | VRef l =>
    match h !! l with
    | Some o => <[l := annotated o]> h
    | None => h
    end
  | _ => h
  end.
End Annotate.
End ScoredStore.

Module ExtractedClause.
Import ClauseExtractor.

(** A section that is not empty and holds white space only. *)
Definition blank (part : option pystr) : Prop :=
  exists c s, part = Some (c :: s) /\ forallb isspace (c :: s) = true.

(** A clause as the data model wants it: its text is trimmed and longer
    than 20 characters. *)
Definition clause_ok (clause : gmap string pyval) : Prop :=
  exists t, clause !! "text" = Some (VStr t)
            /\ (20 < len t)%Z /\ strip t = t.

(** The three fields the last loop of [extract] adds to the clause with
    index [i]. *)
Definition classified (U : UnicodeData) (i : Z) (text : pystr)
    (clause : gmap string pyval) : gmap string pyval :=
  <["word_count" := VInt (count_words text false)]>
    (<["type" := VStr (role_str (_classify_clause U text))]>
       (<["id" := VStr (lit "clause_" ++ str_of_int (i + 1))]> clause)).

(** The clause [extract] builds from the paragraph [para], the one before
    it having the index [i]: the fields [_process_paragraphs] sets and the
    three the last loop of [extract] adds. *)
Definition paragraph_clause (U : UnicodeData) (i : Z) (para : pystr)
    : gmap string pyval :=
  <["word_count" := VInt (count_words para false)]>
    (<["type" := VStr (role_str (_classify_clause U para))]>
       (<["id" := VStr (lit "clause_" ++ str_of_int (i + 1))]>
          (new_clause
             (if (50 <? len para)%Z
              then slice_to 50 para ++ lit "..."
              else para)
             para para))).

(** The header, the text and the type of a clause, as strings. *)
Definition field (clause : gmap string pyval) (key : string) : pystr :=
  match clause !! key with
  | Some (VStr s) => s
  | _ => []
  end.

Definition summary (r : result (list (gmap string pyval)))
    : result (list (pystr * pystr * pystr)) :=
  match r with
  | Ok clauses =>
    Ok (map (fun c => (field c "header", field c "text", field c "type"))
          clauses)
  | Raise e => Raise e
  end.
End ExtractedClause.

(** Tables that leave code points above U+007F alone; for inputs made of
    ASCII only the choice of tables plays no role. *)
Definition ascii_tables : UnicodeData :=
  {| ucd_lower := fun c => [c];
     ucd_cased := fun _ => false;
     ucd_case_ignorable := fun _ => false;
     ucd_decimal := fun _ => false;
     ucd_digit := fun _ => false |}.

(** ** Inputs of the examples *)

Module Examples.
Import RiskScorer ScoredStore.

(** The clause of the specification's scenario A. *)
Definition scenario_A : pystr :=
  lit "The Company may terminate this agreement at any time without cause and without notice. The Employee shall have unlimited liability for any damages.".

(** The clause of [test_high_risk_detection], line breaks and indentation
    as in the test. *)
Definition test_high_risk_clause : pystr :=
  LF ++ lit "    The Company may terminate this agreement at any time without cause"
  ++ LF ++ lit "    and without notice. The Employee shall have unlimited liability"
  ++ LF ++ lit "    for any damages."
  ++ LF ++ lit "    ".

(** The three clauses of [test_composite_score]. *)
Definition payment_text : pystr := lit "Standard payment terms apply.".
Definition termination_text : pystr := lit "Party may terminate without cause.".
Definition liability_text : pystr := lit "Unlimited liability for all damages.".

(** A clause that fires three high-impact patterns. *)
Definition harsh_text : pystr :=
  lit "The Company may terminate at its sole discretion; the Employee has unlimited liability and shall pay a penalty.".

Definition clause_dict (text role : pystr) : pyobj :=
  ODict (<["type" := VStr role]> (<["text" := VStr text]> ∅)).

(** A store with a list of four clauses, two of them the same object. *)
Definition store_four : gmap loc pyobj :=
  <[0%nat := OList [VRef 1%nat; VRef 2%nat; VRef 3%nat; VRef 2%nat]]>
    (<[1%nat := clause_dict payment_text (lit "obligation")]>
       (<[2%nat := clause_dict harsh_text (lit "prohibition")]>
          (<[3%nat := clause_dict termination_text (lit "right")]> ∅))).

Definition clauses_four : list pyval :=
  [VRef 1%nat; VRef 2%nat; VRef 3%nat; VRef 2%nat].

Definition texts_four : list pystr :=
  [payment_text; harsh_text; termination_text; harsh_text].

(** A store with one clause, of low risk, that fires a high-impact
    pattern. *)
Definition store_one : gmap loc pyobj :=
  <[0%nat := OList [VRef 1%nat]]>
    (<[1%nat := clause_dict termination_text (lit "prohibition")]> ∅).

(** A store with a list of eight clauses: one scores 35, the seven others,
    all the same object, score 0. *)
Definition store_eight : gmap loc pyobj :=
  <[0%nat := OList (VRef 1%nat :: replicate 7 (VRef 2%nat))]>
    (<[1%nat := clause_dict liability_text (lit "obligation")]>
       (<[2%nat := clause_dict payment_text (lit "obligation")]> ∅)).

Definition texts_eight : list pystr :=
  liability_text :: replicate 7 payment_text.

(** A store whose clause list is empty. *)
Definition store_empty : gmap loc pyobj := <[0%nat := OList []]> ∅.

(** A document that opens with a line holding one space, followed by two
    numbered sections. *)
Definition blank_lead_text : pystr :=
  lit " " ++ LF ++ lit "1. Definitions"
  ++ LF ++ lit "The term Company means the employer named above."
  ++ LF ++ lit "2. Payment"
  ++ LF ++ lit "The Company shall pay the Employee every month."
  ++ LF.

Definition block_text : pystr :=
  lit "This agreement is made between the two parties and stays in force for life.".

(** A clause with a prohibition and an obligation keyword. *)
Definition shall_not_text : pystr :=
  lit "The Employee SHALL NOT disclose the terms of this agreement.".

(** The clause of [test_low_risk_detection]; scenario B is the same
    sentence on one line. *)
Definition test_low_risk_clause : pystr :=
  LF ++ lit "    The parties agree to maintain confidentiality of proprietary information"
  ++ LF ++ lit "    disclosed during the term of this agreement."
  ++ LF ++ lit "    ".

Definition scenario_B : pystr :=
  lit "The parties agree to maintain confidentiality of proprietary information disclosed during the term of this agreement.".

(** The texts of [test_classification.py]. *)
Definition employment_text : pystr :=
  LF ++ lit "    Employment Agreement"
  ++ LF ++ lit "    This agreement is between XYZ Company (Employer) and Jane Doe (Employee)."
  ++ LF ++ lit "    Position: Software Engineer"
  ++ LF ++ lit "    Salary: Rs. 80,000 per month"
  ++ LF ++ lit "    Leave: 21 days paid leave per year"
  ++ LF ++ lit "    ".

Definition vendor_text : pystr :=
  LF ++ lit "    Vendor Agreement"
  ++ LF ++ lit "    This purchase order is for the supply of 100 units of Product X"
  ++ LF ++ lit "    to be delivered by the vendor within 30 days."
  ++ LF ++ lit "    Payment terms: Net 30 days after delivery."
  ++ LF ++ lit "    ".

Definition lease_text : pystr :=
  LF ++ lit "    Lease Agreement"
  ++ LF ++ lit "    The landlord agrees to lease the premises located at 123 Main Street"
  ++ LF ++ lit "    to the tenant for a monthly rent of Rs. 25,000."
  ++ LF ++ lit "    Security deposit: Rs. 50,000"
  ++ LF ++ lit "    Lease term: 11 months"
  ++ LF ++ lit "    ".

Definition service_text : pystr :=
  LF ++ lit "    Professional Services Agreement"
  ++ LF ++ lit "    The consultant agrees to provide software development services"
  ++ LF ++ lit "    to the client. Scope of work includes design, development, and testing."
  ++ LF ++ lit "    Deliverables shall be submitted within 3 months."
  ++ LF ++ lit "    ".

(** The two sentences of [test_hindi_clause_extraction]. *)
Definition hindi_text : pystr :=
  lit "ग्राहक को 30 दिनों के भीतर भुगतान करना होगा।".
Definition hindi_right : pystr :=
  lit "कर्मचारी को छुट्टी का अधिकार है।".

(** Clauses scoring 10 and 80; [harsh_text] scores 90. *)
Definition vague_text : pystr :=
  lit "Each party shall make reasonable arrangements for access.".
Definition abroad_text : pystr :=
  lit "The Supplier may terminate at will; the courts of Singapore decide what is reasonable.".

(** A store with the three clauses of scenario C. *)
Definition store_C : gmap loc pyobj :=
  <[0%nat := OList [VRef 1%nat; VRef 2%nat; VRef 3%nat]]>
    (<[1%nat := clause_dict vague_text (lit "obligation")]>
       (<[2%nat := clause_dict abroad_text (lit "right")]>
          (<[3%nat := clause_dict harsh_text (lit "right")]> ∅))).

(** A document with a preamble and four headings. *)
Definition sectioned_text : pystr :=
  lit "Preamble text of sufficient length for a clause."
  ++ LF ++ lit "1. Definitions"
  ++ LF ++ lit "The term Company means the employer named above."
  ++ LF ++ lit "2.1 Payment Terms"
  ++ LF ++ lit "The Employee shall not disclose anything, if asked."
  ++ LF ++ lit "ARTICLE 3"
  ++ LF ++ lit "Short."
  ++ LF ++ lit "ARTICLE 4"
  ++ LF ++ lit "The landlord may terminate the lease of the tenant at will.".

(** The clauses [extract] returns for it, and the third of them. *)
Definition sectioned_clauses : list (gmap string pyval) :=
  Eval vm_compute in
    match ClauseExtractor.extract ascii_tables sectioned_text with
    | Ok clauses => clauses
    | Raise _ => []
    end.

Definition sectioned_third : gmap string pyval :=
  Eval vm_compute in default ∅ (sectioned_clauses !! 2%nat).

(** The float 60.0. *)
Definition float_60 : spec_float := S754_finite false 8444249301319680 (-47).

(** The float that prints as 4.38. *)
Definition float_4_38 : spec_float := S754_finite false 4931441591970693 (-50).

End Examples.

(** ** Vocabulary of the further statements *)

Module Ranking.
Local Open Scope Z_scope.

(** [r] is the first entry of [l] with the largest score. *)
Definition first_maximum (l : list (pystr * Z)) (r : pystr * Z) : Prop :=
  exists i : nat,
    l !! i = Some r
    /\ forall (j : nat) e, l !! j = Some e ->
         snd e <= snd r /\ ((j < i)%nat -> snd e < snd r).
End Ranking.

Module FiringVectors.
Import RiskScorer ScoredStore.
Local Open Scope Z_scope.

(** The weights of a list of table entries, added up. *)
Definition total_weight (entries : list (pystr * risk_pattern)) : Z :=
  foldr (fun e acc => weight (snd e) + acc) 0 entries.

(** The loop of [score_clause] on a vector that tells, entry by entry,
    whether the entry fires. *)
Fixpoint scan_vector (ps : list (pystr * risk_pattern)) (bs : list bool)
    (acc : Z * list flag) : Z * list flag :=
  match ps, bs with
  | e :: ps', b :: bs' =>
    scan_vector ps' bs'
      (if b then
         (fst acc + weight (snd e),
          if high_impact e then snd acc ++ [flag_of e] else snd acc)
       else acc)
  | _, _ => acc
  end.

(** All vectors of [n] booleans. *)
Fixpoint all_vectors (n : nat) : list (list bool) :=
  match n with
  | O => [[]]
  | S k => flat_map (fun v => [true :: v; false :: v]) (all_vectors k)
  end.

Definition count_true (bs : list bool) : nat :=
  length (List.filter (fun b => b) bs).

(** A score of 40 or more comes with a flag, a score of 70 or more with
    two fired patterns. *)
Definition verdict_of (scanned : Z * list flag) (fired : nat) : bool :=
  let score := Z.min (fst scanned) 100 in
  ((score <? 40) || (1 <=? length (snd scanned))%nat)
  && ((score <? 70) || (2 <=? fired)%nat).

(** What the table makes true of every firing vector. *)
Definition verdict (bs : list bool) : bool :=
  verdict_of (scan_vector _get_risk_patterns bs (0, [])) (count_true bs).
End FiringVectors.

Module Provenance.
Import ClauseExtractor.
Local Open Scope Z_scope.

(** [s] is a contiguous part of [doc]. *)
Definition infix (s doc : pystr) : Prop := exists a b, doc = a ++ s ++ b.

(** A piece of a split, when it is a string, is a part of [doc]. *)
Definition span (doc : pystr) (piece : option pystr) : Prop :=
  forall s, piece = Some s -> infix s doc.

(** The header of a paragraph clause: the first 50 characters. *)
Definition preview (para : pystr) : pystr :=
  if 50 <? len para then slice_to 50 para ++ lit "..." else para.

(** A header the section loop can hold: the initial one, or a heading
    read from the document. *)
Definition heading (doc header : pystr) : Prop :=
  header = lit "General" \/ (infix header doc /\ len header < 100).

(** A clause that quotes [doc]: its text is a part of the document, and
    its header and full text have one of the two shapes the extractor
    builds, under a heading or as a paragraph of its own. *)
Definition quoted (doc : pystr) (clause : gmap string pyval) : Prop :=
  exists header t,
    clause !! "header" = Some (VStr header)
    /\ clause !! "text" = Some (VStr t)
    /\ infix t doc
    /\ ((heading doc header
         /\ clause !! "full_text" = Some (VStr (header ++ LF ++ t)))
        \/ (header = preview t
            /\ clause !! "full_text" = Some (VStr t))).

(** A trimmed section the section loop takes for a heading: shorter than
    100 characters, and beginning with a digit or with the word article
    in any case. *)
Definition is_heading (U : UnicodeData) (part : pystr) : bool :=
  (len part <? 100)
  && match part with
     | [] => false
     | c :: _ => isdigit U c || startswith (lower U part) (lit "article")
     end.

(** Sections as [re.split] returns them: a preamble, a heading with its
    two groups, a body that begins with a digit, a heading, a body. *)
Definition notice_sections : list (option pystr) :=
  [Some (lit "This agreement is made between the two parties.");
   Some (lit "1. Notice"); None;
   Some (lit "30 days of notice are required.");
   Some (lit "2. Payment"); None;
   Some (lit "The Company shall pay the Employee every month.")].

Definition notice_clauses : list (gmap string pyval) :=
  Eval vm_compute in
    match _process_numbered_sections ascii_tables notice_sections with
    | Ok clauses => clauses
    | Raise _ => []
    end.
End Provenance.

Module PipelineExamples.
Import Examples.

(** A value that has the method [lower]: a string or a bytes. *)
Definition has_lower (v : pyval) : bool :=
  match v with
  | VStr _ | VBytes _ => true
  | _ => false
  end.

(** A clause dict whose text is a bytes. *)
Definition bytes_clause : gmap string pyval :=
  <["text" := VBytes (list_byte_of_string
                        "The Company may terminate this agreement.")]> ∅.

(** A store with a list of two clauses, the second of them with a bytes
    as its text. *)
Definition store_bytes : gmap loc pyobj :=
  <[0%nat := OList [VRef 1%nat; VRef 2%nat]]>
    (<[1%nat := clause_dict payment_text (lit "obligation")]>
       (<[2%nat := ODict bytes_clause]> ∅)).

(** The one clause [extract] makes of [block_text], with the field the
    analysis adds before it scores the clause. *)
Definition analysed_block : gmap string pyval :=
  <["entities" := VNone]>
    (ExtractedClause.paragraph_clause ascii_tables 0 (strip block_text)).

Definition store_block : gmap loc pyobj :=
  <[0%nat := OList [VRef 1%nat]]> (<[1%nat := ODict analysed_block]> ∅).
End PipelineExamples.

Module Entities.
Import EntityExtractor.

(** An entity whose text, when it has one, is a string or a bytes. *)
Definition texted (entity : gmap string pyval) : bool :=
  match default (VStr []) (entity !! "text") with
  | VStr _ | VBytes _ => true
  | _ => false
  end.

(** The key two entities are compared by: the text, lowercased and
    trimmed; an entity without a text has the empty key. *)
Definition key (U : UnicodeData) (entity : gmap string pyval) : text_key :=
  match lower_strip U (default (VStr []) (entity !! "text")) with
  | Ok text => text
  | Raise _ => inl []
  end.

Definition entity (text : pystr) (start : Z) : gmap string pyval :=
  <["start" := VInt start]> (<["text" := VStr text]> ∅).

(** Three mentions of a duration, two of them alike but for case and
    space, and an entity with a blank text. *)
Definition mentions : list (gmap string pyval) :=
  [entity (lit "30 days") 10; entity (lit "  ") 20;
   entity (lit "30 Days ") 40; entity (lit "2 years") 60].

Definition mentions_unique : list (gmap string pyval) :=
  [entity (lit "30 days") 10; entity (lit "2 years") 60].

(** Two mentions whose texts are bytes, alike but for case and space, and
    a mention with the same letters as a string. *)
Definition byte_mentions : list (gmap string pyval) :=
  [<["text" := VBytes (list_byte_of_string "Delhi")]> ∅;
   <["text" := VBytes (list_byte_of_string " DELHI ")]> ∅;
   <["text" := VStr (lit "delhi")]> ∅].
End Entities.

Module ReplyLists.
Import Explainer.

Section Listed.
Context (U : UnicodeData) (markers : list pystr).

(** A line that mentions one of the markers, in any case. *)
Definition marker (line : pystr) : bool := any_in markers (lower U line).

(** A line that becomes an item once the list is open. *)
Definition item_line (line : pystr) : bool :=
  negb (marker line) && truthy (strip line).

(** The items of a reply: the lines after the first marker line that are
    neither marker lines nor blank, each without its bullet. *)
Definition listed (lines : list pystr) : list pystr :=
  map item
    (List.filter item_line (dropwhile (fun line => negb (marker line)) lines)).
End Listed.

(** A line that mentions a concern or a risk. *)
Definition concern_line (U : UnicodeData) (line : pystr) : bool :=
  contains (lit "concern") (lower U line)
  || contains (lit "risk") (lower U line).
End ReplyLists.

Module ParserExamples.
Import DocumentParser.

(** A directory with one text file, of one byte that is not UTF-8. *)
Definition one_byte_file : files :=
  {| read_utf8 := fun _ => DecodeError;
     read_latin1 := fun _ => Loaded [0xFF%N];
     docx_paragraphs := fun _ => LoadFailed (lit "Package not found");
     pdf_pages := fun _ => LoadFailed (lit "EOF marker not found") |}.
End ParserExamples.

Module UnbrokenText.
Import ClauseExtractor.






(** White space up to a line feed. *)
Fixpoint gap (s : pystr) : bool :=
  match s with
  | [] => false
  | c :: s' => is_lf c || isspace c && gap s'
  end.

Fixpoint blank_free (doc : pystr) : bool :=
  match doc with
  | [] => true
  | c :: rest => (negb (is_lf c) || negb (gap rest)) && blank_free rest
  end.


(** A block of four lines, the second of them a page number. *)
Definition page_text : pystr :=
  lit "The parties agree to the terms set out below in full."
  ++ LF ++ lit "12"
  ++ LF ++ lit "Second page of the agreement continues here"
  ++ LF ++ lit "and the prose goes on for a good while longer.".
End UnbrokenText.

(* ===================================================================== *)
(** * Part II: properties *)
(* ===================================================================== *)

(** ** Substring search *)

Section StringFacts.
Implicit Types s p a b : pystr.

Lemma startswith_spec s p :
  startswith s p = true <-> exists b, s = p ++ b.
Proof.
  revert s; induction p as [|x p IH]; intros s; simpl.
  - split; [intros _; by exists s | done].
  - destruct s as [|y s].
    + split; [done | intros [b Hb]; discriminate].
    + rewrite andb_true_iff, N.eqb_eq, IH. split.
      * intros [-> [b ->]]. by exists b.
      * intros [b Hb]. injection Hb as -> ->. eauto.
Qed.

Lemma contains_spec p s :
  contains p s = true <-> exists a b, s = a ++ p ++ b.
Proof.
  induction s as [|y s IH]; simpl.
  - rewrite orb_false_r, startswith_spec. split.
    + intros [b Hb]. by exists [], b.
    + intros (a & b & Hab). destruct a; [by exists b | discriminate].
  - rewrite orb_true_iff, startswith_spec, IH. split.
    + intros [[b Hb] | (a & b & ->)].
      * by exists [], b.
      * by exists (y :: a), b.
    + intros (a & b & Hab). destruct a as [|z a]; simpl in Hab.
      * left. by exists b.
      * right. injection Hab as -> ->. by exists a, b.
Qed.

(** A match survives text added on either side. *)
Lemma contains_extend p s a b :
  contains p s = true -> contains p (a ++ s ++ b) = true.
Proof.
  rewrite !contains_spec. intros (a' & b' & ->).
  exists (a ++ a'), (b' ++ b). by rewrite <- !app_assoc.
Qed.

Lemma any_in_spec kws s :
  any_in kws s = true <-> exists kw, In kw kws /\ contains kw s = true.
Proof. apply existsb_exists. Qed.
End StringFacts.

(** ** Lowercasing and context *)

Section LowerFacts.
Context (U : UnicodeData).
Implicit Types s p before after : pystr.

Lemma lower_from_in before s : lower_from U before s = lower_in U before s [].
Proof.
  revert before; induction s as [|c s IH]; intros before; simpl; [done|].
  by rewrite IH, app_nil_r.
Qed.

Lemma lower_in_app before s1 s2 after :
  lower_in U before (s1 ++ s2) after
  = lower_in U before s1 (s2 ++ after)
    ++ lower_in U (rev s1 ++ before) s2 after.
Proof.
  revert before; induction s1 as [|c s1 IH]; intros before; simpl; [done|].
  rewrite IH, <- !app_assoc. simpl. done.
Qed.

Lemma alike_refl l : Forall2 alike l l.
Proof. induction l; constructor; [by left | done]. Qed.

Lemma lower_at_alike b1 a1 b2 a2 c :
  Forall2 alike (lower_at U b1 c a1) (lower_at U b2 c a2).
Proof.
  unfold lower_at. destruct (c =? SIGMA)%N.
  - constructor; [|constructor]. right.
    by destruct (final_sigma U b1 a1), (final_sigma U b2 a2).
  - apply alike_refl.
Qed.

(** The context changes nothing but the form of sigma. *)
Lemma lower_in_alike s b1 a1 b2 a2 :
  Forall2 alike (lower_in U b1 s a1) (lower_in U b2 s a2).
Proof.
  revert b1 b2; induction s as [|c s IH]; intros b1 b2; simpl.
  - constructor.
  - apply Forall2_app; [apply lower_at_alike | apply IH].
Qed.

Lemma alike_sigma_free p q :
  sigma_free p = true -> Forall2 alike p q -> q = p.
Proof.
  intros Hp H. induction H as [|x y p q Hxy _ IH]; [done|].
  simpl in Hp. apply andb_true_iff in Hp as [Hx Hp].
  rewrite IH by done. f_equal.
  destruct Hxy as [-> | [Hsx _]]; [done|].
  rewrite Hsx in Hx. discriminate.
Qed.

Lemma contains_alike p l1 l2 :
  sigma_free p = true -> Forall2 alike l1 l2 ->
  contains p l1 = true -> contains p l2 = true.
Proof.
  intros Hp H. rewrite !contains_spec. intros (a & b & ->).
  apply Forall2_app_inv_l in H as (a' & r & _ & H & ->).
  apply Forall2_app_inv_l in H as (p' & b' & Hpp & _ & ->).
  apply (alike_sigma_free _ _ Hp) in Hpp as ->. by exists a', b'.
Qed.

(** A keyword without sigma found in the lowercase of [t] is found in
    the lowercase of every text that has [t] as a contiguous part. *)
Lemma contains_lower_extend p t pre post :
  sigma_free p = true ->
  contains p (lower U t) = true ->
  contains p (lower U (pre ++ t ++ post)) = true.
Proof.
  intros Hp H. unfold lower in *. rewrite lower_from_in in *.
  rewrite !lower_in_app.
  apply contains_extend.
  eapply contains_alike; [done | | exact H].
  apply lower_in_alike.
Qed.
End LowerFacts.

(** ** The matcher moves forward *)

Module RegexFacts.
Import MatcherStates.

Lemma reached_refl st : reached st st.
Proof. by split. Qed.

Lemma reached_trans st1 st2 st3 :
  reached st1 st2 -> reached st2 st3 -> reached st1 st3.
Proof. unfold reached. lia. Qed.

Lemma star_forward body : forward body -> forall fuel, forward (star body fuel).
Proof.
  intros Hbody fuel; induction fuel as [|fuel IH]; intros st k res; simpl.
  - intros H. exists st. split; [apply reached_refl | done].
  - destruct (body st _) as [r|] eqn:Hb.
    + intros [= ->]. apply Hbody in Hb as (st1 & H1 & Hk).
      destruct (pos st <? pos st1)%nat; [|done].
      apply IH in Hk as (st2 & H2 & Hk). exists st2.
      split; [by eapply reached_trans | done].
    + intros H. exists st. split; [apply reached_refl | done].
Qed.

Lemma run_forward r : forward (run r).
Proof.
  induction r as [|p|r1 IH1 r2 IH2|r1 IH1 r2 IH2|r IH|n r IH];
    intros st k res; simpl.
  - intros H. exists st. split; [apply reached_refl | done].
  - destruct st as [p0 [|c s] cs]; simpl; [done|].
    destruct (p c); [|done]. intros H. eexists. split; [|exact H].
    unfold reached; simpl. lia.
  - intros H. apply IH1 in H as (st1 & H1 & H).
    apply IH2 in H as (st2 & H2 & H). exists st2.
    split; [by eapply reached_trans | done].
  - destruct (run r1 st k) eqn:H1.
    + intros [= ->]. by apply IH1.
    + apply IH2.
  - by apply star_forward.
  - intros H. apply IH in H as (st1 & H1 & H). eexists. split; [|exact H].
    destruct H1 as [H1 H1']. split; simpl; lia.
Qed.

(** A pattern that begins with a character class consumes that
    character: its matches are not empty. *)
Lemma run_first_char p r st res :
  run (Seq (Chr p) r) st Some = Some res ->
  (pos st < pos res)%nat
  /\ (pos res + length (rest res) = pos st + length (rest st))%nat.
Proof.
  simpl. destruct st as [p0 [|c s] cs]; simpl; [done|].
  destruct (p c); [|done]. intros H.
  apply run_forward in H as (st' & [H1 H2] & [= ->]). simpl in *. lia.
Qed.

Lemma search_from_first_char p r : forall s q start st,
  search_from (Seq (Chr p) r) q s = Some (start, st) ->
  (q <= start < pos st)%nat /\ (pos st <= q + length s)%nat.
Proof.
  induction s as [|c s IH]; intros q start st; cbn [search_from].
  - destruct (run _ _ _) eqn:Hr; [|done]. intros [= <- <-].
    apply run_first_char in Hr. simpl in Hr. lia.
  - destruct (run _ _ _) eqn:Hr.
    + intros [= <- <-]. apply run_first_char in Hr. simpl in Hr |- *. lia.
    + intros H. apply IH in H. simpl. lia.
Qed.

(** The fuel of [split] is never used up: any amount above the length
    of the text still to be split gives the same list. *)
Lemma split_from_fuel p r n text : forall f1 f2 last,
  (last <= length text)%nat ->
  (length text - last < f1)%nat -> (length text - last < f2)%nat ->
  split_from f1 (Seq (Chr p) r) n text last
  = split_from f2 (Seq (Chr p) r) n text last.
Proof.
  induction f1 as [|f1 IH]; intros f2 last Hlast H1 H2; [lia|].
  destruct f2 as [|f2]; [lia|]. cbn [split_from].
  destruct (search_from _ _ _) as [[s st]|] eqn:Hs; [|done].
  apply search_from_first_char in Hs. rewrite length_skipn in Hs.
  f_equal. f_equal. apply IH; lia.
Qed.
End RegexFacts.

(** ** The pattern engine: [score_clause] *)

Module ScoreClauseFacts.
Import RiskScorer ScoredStore.
Local Open Scope Z_scope.

Lemma table_weights_nonneg :
  Forall (fun e => 0 <= weight (snd e)) _get_risk_patterns.
Proof.
  apply List.Forall_forall. intros e He. apply Z.leb_le.
  revert e He. apply forallb_forall. reflexivity.
Qed.

Lemma table_keywords_sigma_free e kw :
  In e _get_risk_patterns -> In kw (keywords (snd e)) -> sigma_free kw = true.
Proof.
  intros He Hkw.
  assert (H : forallb (fun e : pystr * risk_pattern =>
                         forallb sigma_free (keywords (snd e)))
                _get_risk_patterns = true) by reflexivity.
  rewrite forallb_forall in H. specialize (H e He).
  rewrite forallb_forall in H. by apply H.
Qed.

(** What one round of the loop adds to the running total. *)
Lemma scan_pattern_score cl acc e :
  fst (scan_pattern cl acc e)
  = fst acc + (if any_in (keywords (snd e)) cl then weight (snd e) else 0).
Proof.
  destruct acc as [s f], e as [name info]; simpl.
  destruct (any_in _ _); simpl; lia.
Qed.

Lemma scan_total_nonneg cl ps :
  Forall (fun e => 0 <= weight (snd e)) ps ->
  forall acc, 0 <= fst acc ->
  0 <= fst (fold_left (scan_pattern cl) ps acc).
Proof.
  induction 1 as [|e ps He _ IH]; intros acc Hacc; simpl; [done|].
  apply IH. rewrite scan_pattern_score. destruct (any_in _ _); lia.
Qed.

(** More fired patterns, larger total. *)
Lemma scan_total_mono cl1 cl2 ps :
  Forall (fun e => 0 <= weight (snd e)) ps ->
  (forall e, In e ps -> any_in (keywords (snd e)) cl1 = true ->
             any_in (keywords (snd e)) cl2 = true) ->
  forall acc1 acc2, fst acc1 <= fst acc2 ->
  fst (fold_left (scan_pattern cl1) ps acc1)
  <= fst (fold_left (scan_pattern cl2) ps acc2).
Proof.
  induction 1 as [|e ps He _ IH]; intros Hsub acc1 acc2 Hacc; simpl; [done|].
  apply IH.
  - intros e' He'. apply Hsub. by right.
  - rewrite !scan_pattern_score.
    specialize (Hsub e (or_introl eq_refl)).
    destruct (any_in (keywords (snd e)) cl1).
    + rewrite Hsub by done. lia.
    + destruct (any_in (keywords (snd e)) cl2); lia.
Qed.

Lemma score_clause_score U t ctype :
  score (score_clause U t ctype)
  = Z.min (fst (fold_left (scan_pattern (lower U t)) _get_risk_patterns
                  (0, []))) 100.
Proof.
  unfold score_clause. by destruct (fold_left _ _ _).
Qed.

(** The flags one round of the loop adds, and the flags of the whole
    loop: one per fired high-impact entry, in table order. *)
Lemma scan_flags cl ps : forall acc,
  snd (fold_left (scan_pattern cl) ps acc)
  = snd acc
    ++ map flag_of (List.filter (fun e => fired cl e && high_impact e) ps).
Proof.
  induction ps as [|e ps IH]; intros acc; simpl.
  - by rewrite app_nil_r.
  - rewrite IH. destruct acc as [s f], e as [name info].
    unfold fired, high_impact. simpl.
    destruct (any_in _ _); simpl; [|done].
    destruct (25 <=? weight info); simpl; [|done].
    by rewrite <- app_assoc.
Qed.

Lemma score_clause_flags U t ctype :
  flags (score_clause U t ctype)
  = map flag_of
      (List.filter (fun e => fired (lower U t) e && high_impact e)
         _get_risk_patterns).
Proof.
  unfold score_clause.
  pose proof (scan_flags (lower U t) _get_risk_patterns (0, [])) as H.
  by destruct (fold_left _ _ _).
Qed.

(** The score only depends on which patterns fire, and grows with them. *)
Lemma score_monotone_fired U t t' ctype :
  (forall e, In e _get_risk_patterns ->
             any_in (keywords (snd e)) (lower U t) = true ->
             any_in (keywords (snd e)) (lower U t') = true) ->
  score (score_clause U t ctype) <= score (score_clause U t' ctype).
Proof.
  intros Hsub. rewrite !score_clause_score.
  apply Z.min_le_compat_r.
  by apply scan_total_mono; [apply table_weights_nonneg | | ].
Qed.

(** Every pattern fired by a text is fired by the text with more text
    before and after it. *)
Lemma fired_extend U t pre post e :
  In e _get_risk_patterns ->
  any_in (keywords (snd e)) (lower U t) = true ->
  any_in (keywords (snd e)) (lower U (pre ++ t ++ post)) = true.
Proof.
  intros He. rewrite !any_in_spec. intros (kw & Hkw & Hin).
  exists kw. split; [done|].
  apply contains_lower_extend; [|done].
  by eapply table_keywords_sigma_free.
Qed.

(** C7: for every clause text, the score [score_clause] returns is an
    integer between 0 and 100, both included. *)
Theorem score_clause_bounds U (clause_text contract_type : pystr) :
  0 <= score (score_clause U clause_text contract_type) <= 100.
Proof.
  rewrite score_clause_score. split.
  - apply Z.min_glb; [|lia].
    by apply scan_total_nonneg; [apply table_weights_nonneg|].
  - apply Z.le_min_r.
Qed.

(** C9: monotonicity. A text [t'] obtained from the clause text [t] by
    adding text before and after it, whatever patterns the added text
    matches, fires every pattern [t] fires and scores at least as much as
    [t], the cap at 100 included. *)
Theorem score_clause_monotone U (t pre post contract_type : pystr) :
  let t' := pre ++ t ++ post in
  (forall e, In e _get_risk_patterns ->
             any_in (keywords (snd e)) (lower U t) = true ->
             any_in (keywords (snd e)) (lower U t') = true)
  /\ score (score_clause U t contract_type)
     <= score (score_clause U t' contract_type).
Proof.
  intros t'. split.
  - intros e He. by apply fired_extend.
  - apply score_monotone_fired. intros e He. by apply fired_extend.
Qed.
End ScoreClauseFacts.

(** ** The composite scorer: [score_contract] and the store *)

Module ScoreContractFacts.
Import RiskScorer ScoredStore.
Local Open Scope Z_scope.

Section Loop.
Context (U : UnicodeData) (contract_type : pystr).

Local Abbreviation annotate := (ScoredStore.annotate U contract_type).
Local Abbreviation annotated := (ScoredStore.annotated U contract_type).
Local Abbreviation scored := (ScoredStore.scored U contract_type).
Local Abbreviation risk_of := (fun t => score_clause U t contract_type).

(** Setting the two risk fields leaves the text where it is. *)
Lemma scored_text d t key :
  key <> "risk_score"%string -> key <> "risk_level"%string ->
  scored d t !! key = d !! key.
Proof.
  intros H1 H2. unfold scored.
  by rewrite !lookup_insert_ne.
Qed.

Lemma scored_risk_level d t :
  scored d t !! "risk_level" = Some (VStr (level_str (level (risk_of t)))).
Proof. unfold scored. by rewrite lookup_insert_eq. Qed.

Lemma scored_risk_score d t :
  scored d t !! "risk_score" = Some (VInt (score (risk_of t))).
Proof.
  unfold scored. rewrite lookup_insert_ne by done.
  by rewrite lookup_insert_eq.
Qed.

Lemma scored_idemp d t : scored (scored d t) t = scored d t.
Proof.
  apply map_eq. intros key. unfold scored.
  rewrite !lookup_insert. repeat case_decide; done.
Qed.

Lemma annotated_idemp o : annotated (annotated o) = annotated o.
Proof.
  destruct o as [d|vs]; simpl; [|done].
  destruct (d !! "text") as [[]|] eqn:Ht; simpl; rewrite ?Ht; try done.
  rewrite scored_text, Ht by done. by rewrite scored_idemp.
Qed.

Lemma lookup_annotate h v l :
  annotate h v !! l
  = if decide (v = VRef l) then annotated <$> h !! l else h !! l.
Proof.
  unfold ScoredStore.annotate.
  destruct v as [| | | | | |l']; try (by case_decide).
  case_decide as Hl.
  - injection Hl as ->. destruct (h !! l) eqn:Hh; simpl; [|done].
    by rewrite lookup_insert_eq.
  - assert (l' <> l) by congruence.
    destruct (h !! l'); [by rewrite lookup_insert_ne | done].
Qed.

(** The store after a run of the loop, object by object: the objects the
    clause list refers to are scored (once, however often the list refers
    to them), all others are as before. *)
Lemma lookup_foldl_annotate vs h l :
  foldl annotate h vs !! l
  = if decide (VRef l ∈ vs) then annotated <$> h !! l else h !! l.
Proof.
  revert h; induction vs as [|v vs IH]; intros h; simpl.
  - done.
  - rewrite IH, lookup_annotate.
    destruct (decide (VRef l ∈ vs)) as [Hin|Hin];
      destruct (decide (v = VRef l)) as [->|Hv].
    + rewrite decide_True by left.
      destruct (h !! l); simpl; [|done]. by rewrite annotated_idemp.
    + by rewrite decide_True by by right.
    + by rewrite decide_True by left.
    + rewrite decide_False; [done|].
      intros [?|?]%elem_of_cons; congruence.
Qed.

Lemma text_of_annotated h l o :
  h !! l = Some o ->
  text_of (<[l := annotated o]> h) (VRef l) = text_of h (VRef l).
Proof.
  intros Hh. unfold text_of. rewrite lookup_insert_eq, Hh.
  destruct o as [d|vs]; simpl; [|done].
  destruct (d !! "text") as [[]|] eqn:Ht; simpl; rewrite ?Ht; try done.
  by rewrite scored_text, Ht.
Qed.

Lemma text_of_annotate h v v' : text_of (annotate h v) v' = text_of h v'.
Proof.
  destruct v as [| | | | | |l]; simpl; try done.
  destruct (h !! l) as [o|] eqn:Hh; [|done].
  destruct v' as [| | | | | |l']; simpl; try done.
  destruct (decide (l = l')) as [<-|Hne].
  - by apply text_of_annotated.
  - by rewrite lookup_insert_ne.
Qed.

(** One round of the loop on a clause that has a text. *)
Lemma score_each_step v vs t scores fl h :
  text_of h v = Some t ->
  score_each U contract_type (v :: vs) scores fl h
  = score_each U contract_type vs (scores ++ [score (risk_of t)])
      (fl ++ high_flags (risk_of t)) (annotate h v).
Proof.
  unfold text_of. destruct v as [| | | | | |l]; try done.
  destruct (h !! l) as [[d|]|] eqn:Hh; try done.
  destruct (d !! "text") as [[| | | |s| |]|] eqn:Ht; try done.
  intros [= ->]. simpl. unfold bind, getitem, setitem. simpl.
  rewrite Hh, Ht. simpl. rewrite Hh, lookup_insert_eq, insert_insert_eq.
  rewrite Ht. unfold high_flags.
  destruct (decide (level (risk_of t) = high)); [done|].
  by rewrite app_nil_r.
Qed.

(** The loop as a whole: it cannot fail on clauses that have a text, and
    it returns the scores and the flags of the high clauses in order. *)
Lemma score_each_spec vs texts :
  forall h scores fl,
  Forall2 (fun v t => text_of h v = Some t) vs texts ->
  score_each U contract_type vs scores fl h
  = Ok ((scores ++ map (fun t => score (risk_of t)) texts,
         fl ++ concat (map (fun t => high_flags (risk_of t)) texts)),
        foldl annotate h vs).
Proof.
  revert texts; induction vs as [|v vs IH]; intros texts h scores fl Hall.
  - apply Forall2_nil_inv_l in Hall as ->. simpl.
    by rewrite !app_nil_r.
  - apply Forall2_cons_inv_l in Hall as (t & texts' & Ht & Hall & ->).
    rewrite (score_each_step _ _ t) by done.
    rewrite (IH texts').
    + simpl. by rewrite <- !app_assoc.
    + eapply Forall2_impl; [exact Hall|].
      intros v' t' Hv'. by rewrite text_of_annotate.
Qed.

Lemma level_str_high l : bool_decide (level_str l = lit "high") = bool_decide (l = high).
Proof. by destruct l. Qed.

(** Reading the level back from a scored store. *)
Lemma get_risk_level h v t vs :
  text_of h v = Some t -> v ∈ vs ->
  get v "risk_level" (foldl annotate h vs)
  = Ok (VStr (level_str (level (risk_of t))), foldl annotate h vs).
Proof.
  unfold text_of. destruct v as [| | | | | |l]; try done.
  destruct (h !! l) as [[d|]|] eqn:Hh; try done.
  destruct (d !! "text") as [[| | | |s| |]|] eqn:Ht; try done.
  intros [= ->] Hin. unfold get.
  rewrite lookup_foldl_annotate, decide_True, Hh by done. simpl.
  by rewrite Ht, scored_risk_level.
Qed.

Lemma count_high_spec h vs : forall cs texts,
  Forall2 (fun v t => text_of h v = Some t) cs texts ->
  cs ⊆ vs ->
  count_high cs (foldl annotate h vs)
  = Ok (Z.of_nat (length (filter (fun t => is_high (risk_of t) = true) texts)),
        foldl annotate h vs).
Proof.
  induction cs as [|c cs IH]; intros texts Hall Hsub.
  - by apply Forall2_nil_inv_l in Hall as ->.
  - apply Forall2_cons_inv_l in Hall as (t & texts' & Ht & Hall & ->).
    simpl. unfold bind at 1.
    rewrite (get_risk_level _ _ t) by (done || set_solver).
    unfold bind at 1. rewrite (IH texts') by (done || set_solver).
    unfold ret, eq_str. rewrite level_str_high. simpl.
    rewrite filter_cons. unfold is_high.
    destruct (decide (bool_decide (level (risk_of t) = high) = true)) as [Hb|Hb].
    + rewrite Hb. simpl length. f_equal. f_equal. lia.
    + apply not_true_is_false in Hb. rewrite Hb. done.
Qed.

(** The complete result of [score_contract] on a list of clauses that
    have a text. *)
Lemma score_contract_spec h clauses vs texts :
  clause_list h clauses vs texts ->
  let scores := map (fun t => score (risk_of t)) texts in
  score_contract U contract_type clauses h
  = Ok ({| composite_score := round (mean scores) 2;
           risk_level_of := level_of (mean scores);
           risk_flags := concat (map (fun t => high_flags (risk_of t)) texts);
           clause_count := Z.of_nat (length vs);
           high_risk_clauses :=
             Z.of_nat (length (filter (fun t => is_high (risk_of t) = true)
                                 texts)) |},
        foldl annotate h vs).
Proof.
  intros (l & -> & Hl & Hall) scores.
  unfold score_contract, bind at 1, elements. rewrite Hl.
  unfold bind at 1. rewrite (score_each_spec vs texts) by done.
  simpl. fold scores.
  assert (Hmean : (match scores with
                   | [] => ret (PInt 0)
                   | _ :: _ =>
                     match truediv (sum scores) (Z.of_nat (length scores)) with
                     | Ok f => ret (PFloat f)
                     | Raise e => raise e
                     end
                   end) = ret (mean scores)).
  { destruct scores as [|s scores']; [done|]. unfold truediv, mean.
    destruct (Z.eqb_spec (Z.of_nat (length (s :: scores'))) 0) as [E|E];
      [simpl in E; lia | done]. }
  rewrite Hmean. unfold bind at 1, ret at 1.
  unfold bind at 1. by rewrite (count_high_spec h vs vs texts).
Qed.
End Loop.
End ScoreContractFacts.

(** ** What [score_contract] returns and what it leaves in the store *)

Module ScoreContractClaims.
Import RiskScorer ScoredStore ScoreClauseFacts ScoreContractFacts Examples.
Local Open Scope Z_scope.

Lemma clause_list_four :
  clause_list store_four (VRef 0%nat) clauses_four texts_four.
Proof.
  exists 0%nat. split; [reflexivity|]. split; [reflexivity|].
  repeat constructor.
Defined.

Lemma clause_list_eight :
  clause_list store_eight (VRef 0%nat)
    (VRef 1%nat :: replicate 7 (VRef 2%nat)) texts_eight.
Proof.
  exists 0%nat. split; [reflexivity|]. split; [reflexivity|].
  repeat constructor.
Defined.

(** C1, as stated, fails: a clause of low risk fires a high-impact pattern,
    [score_clause] emits its flag, and [score_contract] returns no flag. *)
Lemma flags_of_low_clause_dropped :
  map flag_type (flags (score_clause ascii_tables termination_text []))
  = [lit "unilateral_termination"]
  /\ level (score_clause ascii_tables termination_text []) = low
  /\ exists r h',
       score_contract ascii_tables [] (VRef 0%nat) store_one = Ok (r, h')
       /\ risk_flags r = [].
Proof.
  split; [reflexivity|]. split; [reflexivity|].
  eexists _, _. split; [vm_compute; reflexivity | reflexivity].
Qed.

(** C1, amended: for every list of clauses, the [flags] of the result of
    [score_contract] are the concatenation, in clause order and with
    duplicates kept, of the flags [score_clause] emits (one per fired
    pattern of weight 25 or more, in table order) on the text of each clause
    whose own risk level is high; the flags of the other clauses are left
    out. *)
Theorem score_contract_flags U (contract_type : pystr) (h : gmap loc pyobj)
    (clauses : pyval) (vs : list pyval) (texts : list pystr) :
  clause_list h clauses vs texts ->
  exists r h',
    score_contract U contract_type clauses h = Ok (r, h')
    /\ risk_flags r
       = concat (map (fun t =>
                        let c := score_clause U t contract_type in
                        if decide (level c = high) then flags c else [])
                   texts)
    /\ Forall (fun t =>
                 flags (score_clause U t contract_type)
                 = map flag_of
                     (List.filter
                        (fun e => fired (lower U t) e && high_impact e)
                        _get_risk_patterns))
         texts.
Proof.
  intros Hcl. eexists _, _. split; [by apply score_contract_spec|].
  split; [done|].
  apply Forall_forall. intros t _. apply score_clause_flags.
Qed.

Lemma score_contract_flags_witness :
  exists r h',
    score_contract ascii_tables (lit "service") (VRef 0%nat) store_four
    = Ok (r, h')
    /\ risk_flags r
       = concat (map (fun t =>
                        let c := score_clause ascii_tables t (lit "service") in
                        if decide (level c = high) then flags c else [])
                   texts_four)
    /\ Forall (fun t =>
                 flags (score_clause ascii_tables t (lit "service"))
                 = map flag_of
                     (List.filter
                        (fun e => fired (lower ascii_tables t) e
                                  && high_impact e)
                        _get_risk_patterns))
         texts_four.
Proof.
  exact (score_contract_flags ascii_tables (lit "service") store_four
           (VRef 0%nat) clauses_four texts_four clause_list_four).
Defined.

(** C4, as stated, fails: eight clauses scoring 35, 0, ..., 0 have the mean
    35/8 = 4.375, a number a float represents exactly, and the composite
    score returned is the float 4.38. *)
Lemma composite_score_is_rounded :
  map (fun t => score (score_clause ascii_tables t [])) texts_eight
  = [35; 0; 0; 0; 0; 0; 0; 0]
  /\ (value (nearest_quotient 35 8) == 35 # 8)%Q
  /\ exists r h',
       score_contract ascii_tables [] (VRef 0%nat) store_eight = Ok (r, h')
       /\ composite_score r = PFloat float_4_38
       /\ (35 # 8 < value float_4_38)%Q.
Proof.
  split; [reflexivity|]. split; [reflexivity|].
  eexists _, _. split; [vm_compute; reflexivity|].
  split; reflexivity.
Qed.

(** C4, amended: for every non-empty list of clauses, the [composite_score]
    [score_contract] returns is the arithmetic mean of the per-clause risk
    scores, computed as a float and then rounded to two decimal places
    ([round(mean, 2)]); it is the integer 0 for the empty list. *)
Theorem score_contract_composite U (contract_type : pystr)
    (h : gmap loc pyobj) (clauses : pyval) (vs : list pyval)
    (texts : list pystr) :
  clause_list h clauses vs texts ->
  let scores := map (fun t => score (score_clause U t contract_type)) texts in
  exists r h',
    score_contract U contract_type clauses h = Ok (r, h')
    /\ composite_score r
       = match scores with
         | [] => PInt 0
         | _ :: _ =>
           PFloat (round_float
                     (nearest_quotient (sum scores)
                        (Z.of_nat (length scores))) 2)
         end.
Proof.
  intros Hcl scores. eexists _, _.
  split; [by apply score_contract_spec|]. simpl. fold scores.
  by destruct scores.
Qed.

Lemma score_contract_composite_witness :
  exists r h',
    score_contract ascii_tables [] (VRef 0%nat) store_eight = Ok (r, h')
    /\ composite_score r
       = match map (fun t => score (score_clause ascii_tables t []))
                 texts_eight with
         | [] => PInt 0
         | _ :: _ =>
           PFloat (round_float
                     (nearest_quotient
                        (sum (map (fun t =>
                                     score (score_clause ascii_tables t []))
                                texts_eight))
                        (Z.of_nat
                           (length
                              (map (fun t =>
                                      score (score_clause ascii_tables t []))
                                 texts_eight)))) 2)
         end.
Proof.
  exact (score_contract_composite ascii_tables [] store_eight (VRef 0%nat)
           _ texts_eight clause_list_eight).
Defined.

(** C8: [score_contract] applied to the empty clause list does not raise
    and returns exactly [composite_score = 0] (the integer), [risk_level =
    'low'], [flags = []], [clause_count = 0] and [high_risk_clauses = 0];
    the store is as it was. *)
Theorem score_contract_empty U (contract_type : pystr) (h : gmap loc pyobj)
    (l : loc) :
  h !! l = Some (OList []) ->
  score_contract U contract_type (VRef l) h
  = Ok ({| composite_score := PInt 0;
           risk_level_of := low;
           risk_flags := [];
           clause_count := 0;
           high_risk_clauses := 0 |}, h).
Proof.
  intros Hl. unfold score_contract, bind, elements. by rewrite Hl.
Qed.

Lemma score_contract_empty_witness :
  score_contract ascii_tables (lit "service") (VRef 0%nat) store_empty
  = Ok ({| composite_score := PInt 0;
           risk_level_of := low;
           risk_flags := [];
           clause_count := 0;
           high_risk_clauses := 0 |}, store_empty).
Proof.
  apply (score_contract_empty ascii_tables (lit "service") store_empty 0%nat).
  reflexivity.
Defined.

(** C10: for every input clause list, [score_contract] updates each clause
    record in place: in the store it returns, every clause of the list has
    [risk_score] and [risk_level] set to the result of [score_clause] on
    that clause's text and every other field as before; the list object
    holds the same clauses in the same order; and every object the list
    does not refer to is unchanged. *)
Theorem score_contract_frame U (contract_type : pystr) (h : gmap loc pyobj)
    (clauses : pyval) (vs : list pyval) (texts : list pystr) :
  clause_list h clauses vs texts ->
  exists r h',
    score_contract U contract_type clauses h = Ok (r, h')
    /\ clause_count r = Z.of_nat (length vs)
    /\ (exists l, clauses = VRef l /\ h' !! l = Some (OList vs))
    /\ Forall2 (fun v t =>
                  exists l d d',
                    v = VRef l /\ h !! l = Some (ODict d)
                    /\ h' !! l = Some (ODict d')
                    /\ d' !! "risk_score"
                       = Some (VInt (score (score_clause U t contract_type)))
                    /\ d' !! "risk_level"
                       = Some (VStr (level_str
                                       (level (score_clause U t
                                                 contract_type))))
                    /\ forall key : string,
                         key <> "risk_score"%string ->
                         key <> "risk_level"%string ->
                         d' !! key = d !! key)
         vs texts
    /\ forall l, VRef l ∉ vs -> h' !! l = h !! l.
Proof.
  intros Hcl. eexists _, _. split; [by apply score_contract_spec|].
  destruct Hcl as (l & -> & Hl & Hall). simpl.
  split; [done|]. split; [|split].
  - exists l. split; [done|].
    rewrite lookup_foldl_annotate, Hl. case_decide as Hin; [|done].
    apply list_elem_of_lookup_1 in Hin as [i Hi].
    destruct (Forall2_lookup_l _ _ _ _ _ Hall Hi) as (t & _ & Ht).
    unfold text_of in Ht. by rewrite Hl in Ht.
  - apply Forall2_same_length_lookup_2; [by eapply Forall2_length|].
    intros i v t Hv Ht.
    pose proof (Forall2_lookup_lr _ _ _ _ _ _ Hall Hv Ht) as Htext.
    unfold text_of in Htext.
    destruct v as [| | | | | |l0]; try done.
    destruct (h !! l0) as [[d|]|] eqn:Hh; try done.
    destruct (d !! "text") as [[| | | |s| |]|] eqn:Hd; try done.
    injection Htext as ->.
    exists l0, d, (scored U contract_type d t).
    split; [done|]. split; [done|]. split.
    + rewrite lookup_foldl_annotate, decide_True, Hh.
      * simpl. by rewrite Hd.
      * by eapply list_elem_of_lookup_2.
    + split; [apply scored_risk_score|].
      split; [apply scored_risk_level|].
      intros key H1 H2. by apply scored_text.
  - intros l0 Hl0. by rewrite lookup_foldl_annotate, decide_False.
Qed.

Lemma score_contract_frame_witness :
  exists r h',
    score_contract ascii_tables (lit "service") (VRef 0%nat) store_four
    = Ok (r, h')
    /\ clause_count r = Z.of_nat (length clauses_four)
    /\ (exists l, VRef 0%nat = VRef l /\ h' !! l = Some (OList clauses_four))
    /\ Forall2 (fun v t =>
                  exists l d d',
                    v = VRef l /\ store_four !! l = Some (ODict d)
                    /\ h' !! l = Some (ODict d')
                    /\ d' !! "risk_score"
                       = Some (VInt (score (score_clause ascii_tables t
                                              (lit "service"))))
                    /\ d' !! "risk_level"
                       = Some (VStr (level_str
                                       (level (score_clause ascii_tables t
                                                 (lit "service")))))
                    /\ forall key : string,
                         key <> "risk_score"%string ->
                         key <> "risk_level"%string ->
                         d' !! key = d !! key)
         clauses_four texts_four
    /\ forall l, VRef l ∉ clauses_four -> h' !! l = store_four !! l.
Proof.
  exact (score_contract_frame ascii_tables (lit "service") store_four
           (VRef 0%nat) clauses_four texts_four clause_list_four).
Defined.
End ScoreContractClaims.

Module ScoreContractReport.
Import RiskScorer ScoredStore ScoreContractFacts Examples.
Import ScoreContractClaims.
Local Open Scope Z_scope.

(** The integer [round] picks is a nearest one. *)
Lemma nearest_even_close (n d : Z) :
  0 <= n -> 0 < d -> 2 * Z.abs (nearest_even n d * d - n) <= d.
Proof.
  intros Hn Hd. unfold nearest_even.
  pose proof (Z.div_mod n d ltac:(lia)) as Hdiv.
  pose proof (Z.mod_pos_bound n d Hd) as Hmod.
  destruct (Z.compare_spec (2 * (n mod d)) d) as [H|H|H];
    [destruct (Z.even (n / d))| |]; nia.
Qed.

(** The counts and the level of the result: [clause_count] is the number
    of clauses, [high_risk_clauses] the number of clauses whose own level
    is high, and [risk_level] the level, by the two thresholds, of the mean
    score before it is rounded. *)
Theorem score_contract_counts U (contract_type : pystr) (h : gmap loc pyobj)
    (clauses : pyval) (vs : list pyval) (texts : list pystr) :
  clause_list h clauses vs texts ->
  exists r h',
    score_contract U contract_type clauses h = Ok (r, h')
    /\ clause_count r = Z.of_nat (length texts)
    /\ high_risk_clauses r
       = Z.of_nat (length (filter (fun t =>
                                     level (score_clause U t contract_type)
                                     = high) texts))
    /\ risk_level_of r
       = level_of (mean (map (fun t => score (score_clause U t contract_type))
                           texts)).
Proof.
  intros Hcl. eexists _, _. split; [by apply score_contract_spec|]. simpl.
  destruct Hcl as (l & _ & _ & Hall).
  split; [by rewrite (Forall2_length _ _ _ Hall)|]. split; [|done].
  do 2 f_equal. apply list_filter_iff. intros t. unfold is_high.
  by rewrite bool_decide_eq_true.
Qed.

Lemma score_contract_counts_witness :
  exists r h',
    score_contract ascii_tables (lit "service") (VRef 0%nat) store_four
    = Ok (r, h')
    /\ clause_count r = Z.of_nat (length texts_four)
    /\ high_risk_clauses r
       = Z.of_nat (length (filter (fun t =>
                                     level (score_clause ascii_tables t
                                              (lit "service"))
                                     = high) texts_four))
    /\ risk_level_of r
       = level_of (mean (map (fun t =>
                                score (score_clause ascii_tables t
                                         (lit "service")))
                           texts_four)).
Proof.
  exact (score_contract_counts ascii_tables (lit "service") store_four
           (VRef 0%nat) clauses_four texts_four clause_list_four).
Defined.
End ScoreContractReport.

(** ** Role tagging: [_classify_clause] *)

Module ClassifyFacts.
Import RiskScorer ClauseExtractor Examples.
Local Open Scope Z_scope.

(** C6: for every clause text that contains, once lowercased, at least one
    prohibition keyword and at least one obligation keyword,
    [_classify_clause] returns ['prohibition']. *)
Theorem classify_prohibition_first U (text : pystr) :
  (exists kw, In kw prohibition_keywords
              /\ contains kw (lower U text) = true) ->
  (exists kw, In kw obligation_keywords
              /\ contains kw (lower U text) = true) ->
  _classify_clause U text = Prohibition.
Proof.
  intros Hp _. unfold _classify_clause.
  apply any_in_spec in Hp. by rewrite Hp.
Qed.

Lemma classify_prohibition_first_witness :
  _classify_clause ascii_tables shall_not_text = Prohibition.
Proof.
  apply (classify_prohibition_first ascii_tables shall_not_text).
  - exists (lit "shall not"). split; [|reflexivity].
    unfold prohibition_keywords. left. reflexivity.
  - exists (lit "shall"). split; [|reflexivity].
    unfold obligation_keywords. left. reflexivity.
Defined.

(** C3: on the clause of scenario A the code returns the score 65 and the
    level medium, where the scenario (and [test_high_risk_detection]) wants
    a score of 70 or more and the level high; the role is obligation and
    the two flags are the ones the scenario names. *)
Theorem scenario_A_scores_65 U (contract_type : pystr) :
  let r := score_clause U scenario_A contract_type in
  score r = 65
  /\ level r = medium
  /\ map flag_type (flags r)
     = [lit "unilateral_termination"; lit "uncapped_liability"]
  /\ _classify_clause U scenario_A = Obligation.
Proof. vm_compute. repeat split. Qed.

(** The same on the text of the test, with its line breaks. *)
Lemma high_risk_test_clause_scores_65 U (contract_type : pystr) :
  let r := score_clause U test_high_risk_clause contract_type in
  score r = 65 /\ level r = medium /\ length (flags r) = 2%nat.
Proof. vm_compute. repeat split. Qed.
End ClassifyFacts.

(** ** Segmentation: [extract] *)

Module ExtractFacts.
Import ClauseExtractor ExtractedClause Examples UnbrokenText.
Local Open Scope Z_scope.

Lemma dropwhile_all {A} (f : A -> bool) (l : list A) :
  forallb f l = true -> dropwhile f l = [].
Proof.
  induction l as [|x l IH]; simpl; [done|].
  intros [Hx Hl]%andb_true_iff. rewrite Hx. by apply IH.
Qed.

Lemma strip_blank (s : pystr) : forallb isspace s = true -> strip s = [].
Proof.
  intros H. unfold strip, lstrip, rstrip. by rewrite (dropwhile_all _ s H).
Qed.

Section Extract.
Context (U : UnicodeData).

(** The defect behind C2: a part made of white space only passes the
    emptiness test, is stripped to the empty string and is then indexed. *)
Lemma blank_part_raises (c : N) (ws : pystr) (rest : list (option pystr))
    (header : pystr) (clauses : list (gmap string pyval)) :
  forallb isspace (c :: ws) = true ->
  numbered_sections_loop U (Some (c :: ws) :: rest) header clauses
  = Raise IndexError.
Proof.
  intros H. cbn [numbered_sections_loop]. by rewrite (strip_blank _ H).
Qed.

(** C2: [extract] raises [IndexError] on a document whose first line holds
    one space and whose second line is a numbered heading: the section
    split yields the white-space segment [' '], which is indexed after it
    has been stripped. *)
Theorem extract_raises_on_blank_segment :
  split (clause_header_pattern U) 2 (replace_crlf blank_lead_text)
  = [Some (lit " "); Some (lit "1. Definitions"); None;
     Some (lit "The term Company means the employer named above.");
     Some (lit "2. Payment"); None;
     Some (lit "The Company shall pay the Employee every month." ++ LF)]
  /\ extract U blank_lead_text = Raise IndexError.
Proof. vm_compute. by split. Qed.

(** A pattern that does not match leaves the text in one piece. *)
Lemma split_no_match (r : re) (n : nat) (text : pystr) :
  search r text = None -> split r n text = [Some text].
Proof.
  unfold split, search. intros H. cbn [split_from].
  rewrite !skipn_O. by rewrite H.
Qed.

Lemma new_clause_text (header text full : pystr) :
  new_clause header text full !! "text" = Some (VStr text).
Proof.
  unfold new_clause. rewrite lookup_insert_ne by done.
  by rewrite lookup_insert_eq.
Qed.

(** A text in which neither pattern matches, of more than 20 characters
    once stripped, is one clause. *)
Lemma extract_unbroken (text : pystr) :
  search (clause_header_pattern U) (replace_crlf text) = None ->
  search paragraph_pattern (replace_crlf text) = None ->
  20 < len (strip (replace_crlf text)) ->
  extract U text = Ok [paragraph_clause U 0 (strip (replace_crlf text))].
Proof.
  intros Hh Hp Hlen. unfold extract.
  rewrite (split_no_match _ _ _ Hh). cbn [length Nat.ltb Nat.leb].
  unfold _process_paragraphs. rewrite (split_no_match _ _ _ Hp).
  cbn [paragraphs_loop].
  apply Z.ltb_lt in Hlen. rewrite Hlen. cbn [app classify_each].
  by rewrite new_clause_text.
Qed.
End Extract.













(** C5, as stated, fails in a second way: the header pattern can match
    across a line end, so a page number alone on a line and the line after
    it are read as one heading; a block without any blank line and without
    a line of the form of a heading is then split into two clauses. *)
Lemma page_number_splits_block :
  blank_free (replace_crlf page_text) = true
  /\ summary (extract ascii_tables page_text)
     = Ok [ (lit "General",
             lit "The parties agree to the terms set out below in full.",
             lit "general");
            (lit "12" ++ LF
             ++ lit "Second page of the agreement continues here",
             lit "and the prose goes on for a good while longer.",
             lit "general") ].
Proof. vm_compute. by split. Qed.


End ExtractFacts.

(** ** Contract type: [classify] *)

Module ClassifierFacts.
Import ContractClassifier Examples.
Local Open Scope Z_scope.

Lemma argmax_in (scores : list (pystr * Z)) : forall best,
  argmax best scores = best \/ In (argmax best scores) scores.
Proof.
  induction scores as [|[k v] scores IH]; intros best; simpl; [by left|].
  destruct (IH (if snd best <? v then (k, v) else best)) as [H|H].
  - rewrite H. destruct (snd best <? v); [right; by left | by left].
  - right. by right.
Qed.

(** [classify] never raises, and its result is one of the five contract
    types of the table or ['general']. *)
Theorem classify_total U (text : pystr) :
  exists ty,
    classify U text = Ok ty
    /\ In ty [lit "employment"; lit "vendor"; lit "lease"; lit "partnership";
              lit "service"; lit "general"].
Proof.
  unfold classify, type_keywords. cbn [map fst snd max_value max_key].
  match goal with
  | |- context [argmax ?b ?l] =>
    destruct (argmax_in l b) as [H|H]; revert H;
      generalize (argmax b l); intros best H
  end.
  - subst best. destruct (0 <? _); eexists; (split; [reflexivity|]);
      simpl; tauto.
  - destruct (0 <? _); eexists; (split; [reflexivity|]); [|simpl; tauto].
    simpl in H. destruct H as [<-|[<-|[<-|[<-|[]]]]]; simpl; tauto.
Qed.

(** Scenario E: when no keyword of any contract type occurs in the text,
    [classify] returns ['general']. *)
Theorem classify_general_without_keywords U (text : pystr) :
  (forall entry, In entry type_keywords ->
                 type_score (lower U text) (snd entry) = 0) ->
  classify U text = Ok (lit "general").
Proof.
  intros H. unfold classify.
  assert (Hs : map (fun entry : pystr * list pystr =>
                      (fst entry, type_score (lower U text) (snd entry)))
                 type_keywords
               = map (fun entry => (fst entry, 0)) type_keywords).
  { apply map_ext_in. intros e He. by rewrite H. }
  by rewrite Hs.
Qed.

Lemma classify_general_without_keywords_witness :
  classify ascii_tables scenario_B = Ok (lit "general").
Proof.
  apply (classify_general_without_keywords ascii_tables scenario_B).
  apply List.Forall_forall. repeat constructor.
Defined.

(** The four tests of [test_classification.py] pass. *)
Theorem classification_tests_pass U :
  classify U employment_text = Ok (lit "employment")
  /\ classify U vendor_text = Ok (lit "vendor")
  /\ classify U lease_text = Ok (lit "lease")
  /\ classify U service_text = Ok (lit "service").
Proof. vm_compute. repeat split. Qed.
End ClassifierFacts.

(** ** The scenarios of the specification and the tests of the repository *)

Module ScenarioFacts.
Import RiskScorer ClauseExtractor ScoredStore Examples.
Local Open Scope Z_scope.

(** On a text without cased letters above ASCII the tables play no role. *)
Lemma lower_caseless U (s : pystr) :
  caseless U s -> lower U s = lower ascii_tables s.
Proof.
  unfold lower. generalize (@nil N) at 1 as b1. generalize (@nil N) as b2.
  induction s as [|c s IH]; intros b2 b1 Hs; simpl; [done|].
  apply Forall_cons in Hs as [Hc Hs]. rewrite (IH (c :: b2) (c :: b1) Hs).
  f_equal. unfold lower_at. destruct Hc as [Hc|[Hσ Hc]].
  - rewrite Hc. destruct (N.eqb_spec c SIGMA) as [->|]; [done|]. done.
  - rewrite Hσ. destruct (c <? 0x80)%N; [done|]. by rewrite Hc.
Qed.

(** [test_hindi_clause_extraction] passes: Devanagari has no case. *)
Theorem hindi_tests_pass U :
  (forall c, (0x900 <= c <= 0x97F)%N -> ucd_lower U c = [c]) ->
  _classify_clause U hindi_text = Obligation
  /\ _classify_clause U hindi_right = Right.
Proof.
  intros H.
  assert (Hc : forall s : pystr,
             forallb (fun c => (c <? 0x80) || (0x900 <=? c) && (c <=? 0x97F))%N
               s = true -> caseless U s).
  { intros s Hs. apply List.Forall_forall. intros c Hin.
    rewrite forallb_forall in Hs. specialize (Hs c Hin).
    apply orb_true_iff in Hs as [Hs|Hs]; [by left|]. right.
    apply andb_true_iff in Hs as [H1%N.leb_le H2%N.leb_le]. split.
    - apply N.eqb_neq. unfold SIGMA. lia.
    - apply H. lia. }
  unfold _classify_clause.
  rewrite (lower_caseless U hindi_text) by (apply Hc; reflexivity).
  rewrite (lower_caseless U hindi_right) by (apply Hc; reflexivity).
  by vm_compute.
Qed.

Lemma hindi_tests_pass_witness :
  _classify_clause ascii_tables hindi_text = Obligation
  /\ _classify_clause ascii_tables hindi_right = Right.
Proof. apply (hindi_tests_pass ascii_tables). reflexivity. Defined.

(** Scenario B and [test_low_risk_detection]: the confidentiality clause
    scores below 40, its level is low and it has no flag. *)
Theorem scenario_B_is_low U (contract_type : pystr) :
  score_clause U scenario_B contract_type
  = {| score := 0; level := low; flags := [] |}
  /\ score_clause U test_low_risk_clause contract_type
     = {| score := 0; level := low; flags := [] |}.
Proof. vm_compute. by split. Qed.

(** Scenario C: three clauses scoring 10, 80 and 90 give the composite
    score 60.0, the level medium and two high-risk clauses. *)
Theorem scenario_C_composite U (contract_type : pystr) :
  map (fun t => score (score_clause U t contract_type))
    [vague_text; abroad_text; harsh_text] = [10; 80; 90]
  /\ exists r h',
       score_contract U contract_type (VRef 0%nat) store_C = Ok (r, h')
       /\ composite_score r = PFloat float_60
       /\ (value float_60 == 60)%Q
       /\ risk_level_of r = medium
       /\ clause_count r = 3
       /\ high_risk_clauses r = 2.
Proof.
  split; [by vm_compute|]. eexists _, _.
  split; [vm_compute; reflexivity|]. repeat split.
Qed.

(** The level of a clause is a function of its score: high from 70 on,
    medium from 40 on, low below. *)
Theorem score_clause_level U (clause_text contract_type : pystr) :
  let r := score_clause U clause_text contract_type in
  level r = if HIGH_RISK_THRESHOLD <=? score r then high
            else if MEDIUM_RISK_THRESHOLD <=? score r then medium
            else low.
Proof.
  unfold score_clause. by destruct (fold_left _ _ _).
Qed.
End ScenarioFacts.

(** ** Segmentation: what [extract] returns and when it raises *)

Module StripFacts.

Lemma dropwhile_split {A} (f : A -> bool) (l : list A) :
  exists l1, l = l1 ++ dropwhile f l /\ forallb f l1 = true.
Proof.
  induction l as [|x l (l1 & Hl & Hf)]; simpl.
  - by exists [].
  - destruct (f x) eqn:Hx.
    + exists (x :: l1). simpl. rewrite Hx, Hf. split; [by f_equal | done].
    + by exists [].
Qed.

Lemma dropwhile_head {A} (f : A -> bool) (l : list A) x l' :
  dropwhile f l = x :: l' -> f x = false.
Proof.
  induction l as [|y l IH]; simpl; [done|].
  destruct (f y) eqn:Hy; [done|]. by intros [= <- _].
Qed.

Lemma dropwhile_nil_iff {A} (f : A -> bool) (l : list A) :
  dropwhile f l = [] <-> forallb f l = true.
Proof.
  induction l as [|x l IH]; simpl; [done|].
  destruct (f x); simpl; [done|]. split; discriminate.
Qed.

(** Stripping removes nothing from a stripped string. *)
Lemma strip_idemp (s : pystr) : strip (strip s) = strip s.
Proof.
  unfold strip, lstrip, rstrip.
  set (a := dropwhile isspace s).
  destruct (dropwhile isspace (rev a)) as [|y r] eqn:Hr; [done|].
  assert (Hy : isspace y = false) by by eapply dropwhile_head.
  destruct (dropwhile_split isspace (rev a)) as (l1 & Ha & _).
  rewrite Hr in Ha.
  assert (Hrev : a = rev (y :: r) ++ rev l1).
  { by rewrite <- rev_app_distr, <- Ha, rev_involutive. }
  assert (Hb : dropwhile isspace (rev (y :: r)) = rev (y :: r)).
  { destruct (rev (y :: r)) as [|x b] eqn:Hb.
    - apply (f_equal (@length N)) in Hb. rewrite length_rev in Hb.
      discriminate.
    - simpl. assert (Hx : isspace x = false); [|by rewrite Hx].
      subst a. rewrite <- app_comm_cons in Hrev.
      by eapply dropwhile_head. }
  rewrite Hb, rev_involutive. simpl. by rewrite Hy.
Qed.

Lemma strip_nil_iff (s : pystr) : strip s = [] <-> forallb isspace s = true.
Proof.
  unfold strip, lstrip, rstrip. split.
  - intros H. apply (f_equal (@rev N)) in H. rewrite rev_involutive in H.
    simpl in H. apply dropwhile_nil_iff in H.
    destruct (dropwhile isspace s) as [|x a] eqn:Ha.
    + by apply dropwhile_nil_iff.
    + apply dropwhile_head in Ha. rewrite forallb_forall in H.
      rewrite H in Ha; [done|]. apply in_rev. rewrite rev_involutive. by left.
  - intros H. apply dropwhile_nil_iff in H. by rewrite H.
Qed.
End StripFacts.

Module ExtractLoops.
Import ClauseExtractor ExtractedClause Examples RegexFacts StripFacts.
Local Open Scope Z_scope.

Section Loops.
Context (U : UnicodeData).

Lemma new_clause_ok (header part full : pystr) :
  20 < len part -> strip part = part -> clause_ok (new_clause header part full).
Proof.
  intros Hlen Hs. exists part. split; [|done].
  unfold new_clause. rewrite lookup_insert_ne by done.
  by rewrite lookup_insert_eq.
Qed.

(** One round of the loop of [_process_numbered_sections] on a part that
    is not empty: it raises when the part is blank, and otherwise goes on
    with a new header, with one more clause or with neither. *)
Lemma numbered_sections_step (c : N) (s : pystr)
    (rest : list (option pystr)) (header : pystr)
    (clauses : list (gmap string pyval)) :
  (forallb isspace (c :: s) = true
   /\ numbered_sections_loop U (Some (c :: s) :: rest) header clauses
      = Raise IndexError)
  \/ (forallb isspace (c :: s) = false
      /\ exists header' clauses',
           numbered_sections_loop U (Some (c :: s) :: rest) header clauses
           = numbered_sections_loop U rest header' clauses'
           /\ (Forall clause_ok clauses -> Forall clause_ok clauses')).
Proof.
  cbn [numbered_sections_loop].
  destruct (strip (c :: s)) as [|x part] eqn:Hp.
  - left. split; [by apply strip_nil_iff | done].
  - right. split.
    { destruct (forallb isspace (c :: s)) eqn:Hb; [|done].
      apply strip_nil_iff in Hb. congruence. }
    destruct (len (x :: part) <? 100).
    + destruct (isdigit U x || startswith (lower U (x :: part)) (lit "article")).
      * by eexists _, _.
      * destruct (20 <? len (x :: part)) eqn:Hlen; eexists _, _;
          (split; [reflexivity|]); [|done].
        intros Hok. apply Forall_app. split; [done|].
        apply Forall_singleton, new_clause_ok; [by apply Z.ltb_lt|].
        rewrite <- Hp. apply strip_idemp.
    + destruct (20 <? len (x :: part)) eqn:Hlen; eexists _, _;
        (split; [reflexivity|]); [|done].
      intros Hok. apply Forall_app. split; [done|].
      apply Forall_singleton, new_clause_ok; [by apply Z.ltb_lt|].
      rewrite <- Hp. apply strip_idemp.
Qed.

(** The loop raises exactly when one of the sections is blank, and then
    [IndexError]; when it returns, every clause is as the data model
    wants it. *)
Lemma numbered_sections_loop_spec (sections : list (option pystr)) :
  forall header clauses,
  Forall clause_ok clauses ->
  (Exists blank sections
   /\ numbered_sections_loop U sections header clauses = Raise IndexError)
  \/ (~ Exists blank sections
      /\ exists out,
           numbered_sections_loop U sections header clauses = Ok out
           /\ Forall clause_ok out).
Proof.
  induction sections as [|part sections IH]; intros header clauses Hok.
  - right. split; [by intros H%Exists_nil|]. by exists clauses.
  - destruct part as [[|c s]|].
    + cbn [numbered_sections_loop].
      destruct (IH header clauses Hok) as [[He Hr]|[He Hr]].
      * left. split; [by right | done].
      * right. split; [|done].
        intros [(c & s & [=] & _)|H]%Exists_cons. done.
    + destruct (numbered_sections_step c s sections header clauses)
        as [[Hb Hr]|[Hb (header' & clauses' & Hr & Hok')]].
      * left. split; [|done]. left. by exists c, s.
      * unfold pystr in *. rewrite Hr.
        destruct (IH header' clauses' (Hok' Hok)) as [[He Hr']|[He Hr']].
        -- left. split; [by right | done].
        -- right. split; [|done].
           intros [(c' & s' & [= <- <-] & Hb')|H]%Exists_cons; [|done].
           congruence.
    + cbn [numbered_sections_loop].
      destruct (IH header clauses Hok) as [[He Hr]|[He Hr]].
      * left. split; [by right | done].
      * right. split; [|done].
        intros [(c & s & [=] & _)|H]%Exists_cons. done.
Qed.

(** Without groups, the list [split] returns holds strings only. *)
Lemma split_from_plain (r : re) (text : pystr) : forall fuel last,
  Forall (fun piece => piece <> None) (split_from fuel r 0 text last).
Proof.
  induction fuel as [|fuel IH]; intros last; cbn [split_from].
  - by constructor.
  - destruct (search_from _ _ _) as [[s st]|]; [|by constructor].
    constructor; [done|]. apply IH.
Qed.

Lemma paragraphs_loop_spec (paragraphs : list (option pystr)) :
  forall clauses,
  Forall (fun piece => piece <> None) paragraphs ->
  Forall clause_ok clauses ->
  exists out, paragraphs_loop paragraphs clauses = Ok out
              /\ Forall clause_ok out.
Proof.
  induction paragraphs as [|para paragraphs IH]; intros clauses Hp Hok.
  - by exists clauses.
  - apply Forall_cons in Hp as [Hpara Hp].
    destruct para as [para|]; [|done]. cbn [paragraphs_loop].
    destruct (20 <? len (strip para)) eqn:Hlen; [|by apply IH].
    apply IH; [done|]. apply Forall_app. split; [done|].
    apply Forall_singleton, new_clause_ok;
      [by apply Z.ltb_lt | apply strip_idemp].
Qed.

(** The last loop of [extract] does not raise on clauses that have a
    text, keeps their number and order, and adds three fields to each. *)
Lemma classify_each_spec (clauses : list (gmap string pyval)) :
  forall i, Forall clause_ok clauses ->
  exists out,
    classify_each U i clauses = Ok out
    /\ length out = length clauses
    /\ forall (j : nat) clause, clauses !! j = Some clause ->
         exists t, clause !! "text" = Some (VStr t)
                   /\ out !! j
                      = Some (classified U (i + Z.of_nat j) t clause).
Proof.
  induction clauses as [|clause clauses IH]; intros i Hok.
  - exists []. by repeat split.
  - apply Forall_cons in Hok as [(t & Ht & Hlen & Hs) Hok].
    destruct (IH (i + 1) Hok) as (out & Hout & Hlen' & Hall).
    cbn [classify_each]. rewrite Ht, Hout. eexists. split; [done|].
    split; [simpl; by rewrite Hlen'|].
    intros [|j] c Hc; simpl in Hc.
    + injection Hc as <-. exists t. split; [done|].
      simpl. by rewrite Z.add_0_r.
    + destruct (Hall j c Hc) as (t' & Ht' & Hj). exists t'. split; [done|].
      simpl. rewrite Hj. do 2 f_equal. lia.
Qed.
End Loops.
End ExtractLoops.

Module ExtractTheorems.
Import ClauseExtractor ExtractedClause Examples RegexFacts StripFacts.
Import ExtractFacts ExtractLoops.
Local Open Scope Z_scope.

Section Outcome.
Context (U : UnicodeData).

(** The two outcomes of [extract]: it raises [IndexError] on a blank
    section, or it classifies clauses that are as the data model wants
    them. *)
Lemma extract_outcome (text : pystr) :
  let sections := split (clause_header_pattern U) 2 (replace_crlf text) in
  ((2 < length sections)%nat /\ Exists blank sections
   /\ extract U text = Raise IndexError)
  \/ (~ ((2 < length sections)%nat /\ Exists blank sections)
      /\ exists raw, Forall clause_ok raw
                     /\ extract U text = classify_each U 0 raw).
Proof.
  intros sections. unfold extract. fold sections.
  assert (Hpara : forall t, exists out,
             _process_paragraphs t = Ok out /\ Forall clause_ok out).
  { intros t. apply paragraphs_loop_spec; [apply split_from_plain | done]. }
  destruct (Nat.ltb_spec 2 (length sections)) as [Hlen|Hlen].
  - destruct (numbered_sections_loop_spec U sections (lit "General") [])
      as [[He Hr]|[He (out & Hr & Hok)]]; [done| |].
    + left. unfold _process_numbered_sections. by rewrite Hr.
    + right. split; [by intros [_ H]|].
      unfold _process_numbered_sections. rewrite Hr.
      destruct (length out <? 2)%nat.
      * destruct (Hpara (replace_crlf text)) as (out' & -> & Hok').
        by exists out'.
      * by exists out.
  - right. split; [intros [H _]; lia|].
    cbn [length Nat.ltb Nat.leb].
    destruct (Hpara (replace_crlf text)) as (out' & -> & Hok').
    by exists out'.
Qed.
End Outcome.

(** [extract] raises nothing but [IndexError], and raises it exactly when
    the section split has found a heading and yields a section that is not
    empty and holds white space only. *)
Theorem extract_raises_on_blank_only U (text : pystr) :
  let sections := split (clause_header_pattern U) 2 (replace_crlf text) in
  (forall e, extract U text = Raise e -> e = IndexError)
  /\ (extract U text = Raise IndexError
      <-> (2 < length sections)%nat /\ Exists blank sections).
Proof.
  intros sections. subst sections.
  pose proof (extract_outcome U text) as H. cbv zeta in H.
  destruct H as [(Hlen & He & Hr)|(Hn & raw & Hok & Hr)].
  - rewrite Hr. split; [by intros e [= <-] | done].
  - destruct (classify_each_spec U raw 0 Hok) as (out & Hout & _).
    rewrite Hr, Hout. split; [done|]. split; [done | by intros H].
Qed.

(** Every clause [extract] returns has a trimmed text of more than 20
    characters, the id [clause_<n>] of its position counted from 1, the
    role of its text as type and the number of words of its text. *)
Theorem extract_clause_fields U (text : pystr)
    (clauses : list (gmap string pyval)) (i : nat)
    (clause : gmap string pyval) :
  extract U text = Ok clauses ->
  clauses !! i = Some clause ->
  exists t,
    clause !! "text" = Some (VStr t)
    /\ 20 < len t /\ strip t = t
    /\ clause !! "id"
       = Some (VStr (lit "clause_" ++ str_of_int (Z.of_nat i + 1)))
    /\ clause !! "type" = Some (VStr (role_str (_classify_clause U t)))
    /\ clause !! "word_count" = Some (VInt (count_words t false)).
Proof.
  intros Hex Hi.
  pose proof (extract_outcome U text) as H. cbv zeta in H.
  destruct H as [(_ & _ & Hr)|(_ & raw & Hok & Hr)]; [congruence|].
  destruct (classify_each_spec U raw 0 Hok) as (out & Hout & Hlen & Hall).
  rewrite Hr, Hout in Hex. injection Hex as ->.
  destruct (lookup_lt_is_Some_2 raw i) as [rc Hrc].
  { rewrite <- Hlen. by eapply lookup_lt_Some. }
  destruct (Hall i rc Hrc) as (t & Ht & Hj).
  rewrite Hi in Hj. injection Hj as ->.
  pose proof (proj1 (Forall_lookup _ _) Hok i rc Hrc) as (t' & Ht' & Hlt & Hs).
  rewrite Ht in Ht'. injection Ht' as <-.
  exists t. unfold classified. rewrite Z.add_0_l.
  split; [by rewrite !lookup_insert_ne|]. split; [done|]. split; [done|].
  split; [|split].
  - rewrite !lookup_insert_ne by done. by rewrite lookup_insert_eq.
  - rewrite lookup_insert_ne by done. by rewrite lookup_insert_eq.
  - by rewrite lookup_insert_eq.
Qed.

Lemma extract_clause_fields_witness :
  exists t,
    sectioned_third !! "text" = Some (VStr t)
    /\ 20 < len t /\ strip t = t
    /\ sectioned_third !! "id"
       = Some (VStr (lit "clause_" ++ str_of_int (Z.of_nat 2 + 1)))
    /\ sectioned_third !! "type"
       = Some (VStr (role_str (_classify_clause ascii_tables t)))
    /\ sectioned_third !! "word_count" = Some (VInt (count_words t false)).
Proof.
  apply (extract_clause_fields ascii_tables sectioned_text sectioned_clauses
           2%nat sectioned_third).
  - vm_cast_no_check (eq_refl (Ok sectioned_clauses)).
  - vm_cast_no_check (eq_refl (Some sectioned_third)).
Defined.

(** The empty document has no clause; this is no error. *)
Theorem extract_empty_document U : extract U [] = Ok [].
Proof. reflexivity. Qed.

(** A document with a preamble and four headings, one of them followed
    by a body too short to count. *)
Theorem extract_sectioned_document U :
  summary (extract U sectioned_text)
  = Ok [ (lit "General",
          lit "Preamble text of sufficient length for a clause.",
          lit "general");
         (lit "1. Definitions",
          lit "The term Company means the employer named above.",
          lit "definition");
         (lit "2.1 Payment Terms",
          lit "The Employee shall not disclose anything, if asked.",
          lit "prohibition");
         (lit "ARTICLE 4",
          lit "The landlord may terminate the lease of the tenant at will.",
          lit "right") ].
Proof. vm_compute. reflexivity. Qed.

(** A line feed apart, nothing starts a match of the two patterns. *)
Lemma search_without_lf (r : re) : forall (s : pystr) (q : nat),
  forallb (fun c => negb (is_lf c)) s = true ->
  search_from (Seq (Chr is_lf) r) q s = None.
Proof.
  induction s as [|c s IH]; intros q Hs; [done|].
  simpl in Hs. apply andb_true_iff in Hs as [Hc Hs].
  cbn [search_from run rest]. apply negb_true_iff in Hc. rewrite Hc.
  by apply IH.
Qed.

Lemma replace_crlf_without_lf (s : pystr) :
  forallb (fun c => negb (is_lf c)) s = true -> replace_crlf s = s.
Proof.
  induction s as [|c s IH]; [done|]. intros Hs.
  simpl in Hs. apply andb_true_iff in Hs as [Hc Hs].
  cbn [replace_crlf]. destruct s as [|d s']; [done|].
  simpl in Hs. apply andb_true_iff in Hs as [Hd Hs'].
  apply negb_true_iff in Hd. unfold is_lf in Hd. rewrite Hd, andb_false_r.
  f_equal. apply IH. simpl. by rewrite Hs', andb_true_r, negb_true_iff.
Qed.

(** Scenario D for a text on one line: a text without a line feed, of
    more than 20 characters once trimmed, is one clause whose header is its
    text, cut after 50 characters. *)
Theorem extract_one_line U (text : pystr) :
  forallb (fun c => negb (is_lf c)) text = true ->
  20 < len (strip text) ->
  extract U text = Ok [paragraph_clause U 0 (strip text)].
Proof.
  intros Hlf Hlen.
  pose proof (extract_unbroken U text) as H.
  rewrite (replace_crlf_without_lf text Hlf) in H.
  apply H; [by apply search_without_lf.. | done].
Qed.

Lemma extract_one_line_witness :
  extract ascii_tables block_text
  = Ok [paragraph_clause ascii_tables 0 (strip block_text)].
Proof.
  apply (extract_one_line ascii_tables block_text); reflexivity.
Defined.

(** The fuel of [split] is never used up for the two patterns of the
    extractor: more fuel gives the same list. *)
Theorem split_never_out_of_fuel U (text : pystr) (extra : nat) :
  split_from (S (length text) + extra) (clause_header_pattern U) 2 text 0
  = split (clause_header_pattern U) 2 text
  /\ split_from (S (length text) + extra) paragraph_pattern 0 text 0
     = split paragraph_pattern 0 text.
Proof.
  unfold split, clause_header_pattern, paragraph_pattern.
  split; apply split_from_fuel; lia.
Qed.
End ExtractTheorems.

(** ** Clauses quote the document *)

Module ExtractProvenance.
Import ClauseExtractor ExtractedClause Provenance StripFacts.
Local Open Scope Z_scope.

Lemma infix_refl (s : pystr) : infix s s.
Proof. exists [], []. by rewrite app_nil_r. Qed.

Lemma infix_trans (a b c : pystr) : infix a b -> infix b c -> infix a c.
Proof.
  intros (a1 & a2 & ->) (b1 & b2 & ->).
  exists (b1 ++ a1), (a2 ++ b2). by rewrite <- !app_assoc.
Qed.

Lemma strip_infix (s : pystr) : infix (strip s) s.
Proof.
  unfold strip, rstrip, lstrip.
  destruct (dropwhile_split isspace s) as (l1 & H1 & _).
  destruct (dropwhile_split isspace (rev (dropwhile isspace s)))
    as (l2 & H2 & _).
  exists l1, (rev l2).
  apply (f_equal (@rev N)) in H2. rewrite rev_involutive, rev_app_distr in H2.
  by rewrite <- H2.
Qed.

Lemma skipn_infix (text : pystr) (i : nat) : infix (skipn i text) text.
Proof.
  exists (firstn i text), []. by rewrite app_nil_r, firstn_skipn.
Qed.

Lemma substr_infix (text : pystr) (i j : nat) : infix (substr text i j) text.
Proof.
  unfold substr. eapply infix_trans; [|apply (skipn_infix text i)].
  exists [], (skipn (j - i) (skipn i text)). simpl.
  by rewrite firstn_skipn.
Qed.

(** Every piece [re.split] returns is a part of the text. *)
Lemma split_from_span (r : re) (n : nat) (text : pystr) : forall fuel last,
  Forall (span text) (split_from fuel r n text last).
Proof.
  assert (Hskip : forall last, span text (Some (skipn last text))).
  { intros last s [= <-]. apply skipn_infix. }
  induction fuel as [|fuel IH]; intros last; cbn [split_from].
  - by constructor.
  - destruct (search_from _ _ _) as [[s st]|]; [|by constructor].
    constructor; [intros x [= <-]; apply substr_infix|].
    apply Forall_app. split; [|apply IH].
    apply List.Forall_forall. intros piece (g & <- & _)%in_map_iff.
    unfold group. destruct (lookup_cap _ _) as [[i j]|]; [|done].
    intros x [= <-]. apply substr_infix.
Qed.

Section Loops.
Context (U : UnicodeData) (doc : pystr).

Lemma numbered_sections_quoted (sections : list (option pystr)) :
  forall header clauses out,
  Forall (span doc) sections -> heading doc header ->
  Forall (quoted doc) clauses ->
  numbered_sections_loop U sections header clauses = Ok out ->
  Forall (quoted doc) out.
Proof.
  induction sections as [|piece sections IH];
    intros header clauses out Hsp Hh Hq; [by intros [= <-]|].
  apply Forall_cons in Hsp as [Hp Hsp].
  destruct piece as [[|c s]|]; cbn [numbered_sections_loop];
    [by apply IH | | by apply IH].
  assert (Hin : infix (strip (c :: s)) doc).
  { eapply infix_trans; [apply strip_infix | by apply Hp]. }
  destruct (strip (c :: s)) as [|x part] eqn:Hs.
  { change (len (@nil N) <? 100) with true. by cbv iota. }
  assert (Hnew : (20 <? len (x :: part)) = true ->
                 Forall (quoted doc)
                   (clauses ++ [new_clause header (x :: part)
                                  (header ++ LF ++ x :: part)])).
  { intros _. apply Forall_app. split; [done|]. apply Forall_singleton.
    exists header, (x :: part). unfold new_clause.
    split; [rewrite !lookup_insert_ne by done; by rewrite lookup_insert_eq|].
    split; [rewrite lookup_insert_ne by done; by rewrite lookup_insert_eq|].
    split; [done|]. left. split; [done|]. by rewrite lookup_insert_eq. }
  destruct (len (x :: part) <? 100) eqn:Hlen.
  - destruct (isdigit U x || startswith (lower U (x :: part)) (lit "article")).
    + apply IH; [done| |done]. right. split; [done|]. by apply Z.ltb_lt.
    + destruct (20 <? len (x :: part)) eqn:H20; apply IH; auto.
  - destruct (20 <? len (x :: part)) eqn:H20; apply IH; auto.
Qed.

Lemma paragraphs_quoted (paragraphs : list (option pystr)) :
  forall clauses out,
  Forall (span doc) paragraphs -> Forall (quoted doc) clauses ->
  paragraphs_loop paragraphs clauses = Ok out ->
  Forall (quoted doc) out.
Proof.
  induction paragraphs as [|piece paragraphs IH];
    intros clauses out Hsp Hq; [by intros [= <-]|].
  apply Forall_cons in Hsp as [Hp Hsp].
  destruct piece as [para|]; cbn [paragraphs_loop]; [|done].
  destruct (20 <? len (strip para)) eqn:H20; apply IH; try done.
  apply Forall_app. split; [done|]. apply Forall_singleton.
  exists (preview (strip para)), (strip para). unfold new_clause.
  split; [rewrite !lookup_insert_ne by done; by rewrite lookup_insert_eq|].
  split; [rewrite lookup_insert_ne by done; by rewrite lookup_insert_eq|].
  split; [eapply infix_trans; [apply strip_infix | by apply Hp]|].
  right. split; [done|]. by rewrite lookup_insert_eq.
Qed.

Lemma classify_each_quoted (clauses : list (gmap string pyval)) :
  forall i out,
  Forall (quoted doc) clauses ->
  classify_each U i clauses = Ok out ->
  Forall (quoted doc) out.
Proof.
  induction clauses as [|clause clauses IH]; intros i out Hq;
    cbn [classify_each]; [by intros [= <-]|].
  apply Forall_cons in Hq as [Hc Hq].
  destruct (clause !! "text") as [[| | | |t| |]|] eqn:Ht; try done.
  destruct (classify_each U (i + 1) clauses) as [rest|] eqn:Hr; [|done].
  intros [= <-]. constructor; [|by eapply IH].
  destruct Hc as (header & t' & H1 & H2 & H3 & H4).
  exists header, t'. rewrite !lookup_insert_ne by done. done.
Qed.
End Loops.

Lemma extract_quoted U (text : pystr) (clauses : list (gmap string pyval)) :
  extract U text = Ok clauses ->
  Forall (quoted (replace_crlf text)) clauses.
Proof.
  unfold extract. set (doc := replace_crlf text).
  set (sections := split (clause_header_pattern U) 2 doc).
  assert (Hsec : forall out,
            _process_numbered_sections U sections = Ok out ->
            Forall (quoted doc) out).
  { intros out. apply numbered_sections_quoted;
      [apply split_from_span | by left | done]. }
  assert (Hpara : forall out,
            _process_paragraphs doc = Ok out -> Forall (quoted doc) out).
  { intros out. apply paragraphs_quoted; [apply split_from_span | done]. }
  destruct (if (2 <? length sections)%nat
            then _process_numbered_sections U sections else Ok [])
    as [raw|] eqn:Hraw; [|done].
  assert (Hq : Forall (quoted doc) raw).
  { destruct (2 <? length sections)%nat; [by apply Hsec|].
    injection Hraw as <-. done. }
  destruct (length raw <? 2)%nat.
  - destruct (_process_paragraphs doc) as [out|] eqn:Hout; [|done].
    apply classify_each_quoted. by apply Hpara.
  - by apply classify_each_quoted.
Qed.

Lemma preview_short (t : pystr) : len (preview t) < 100.
Proof.
  unfold preview, len, slice_to.
  destruct (Z.ltb_spec 50 (Z.of_nat (length t))) as [H|H]; [|lia].
  rewrite length_app, length_firstn.
  change (length (lit "...")) with 3%nat. lia.
Qed.

(** Every clause [extract] returns quotes the document: its text is a
    contiguous part of the document (line ends normalised), taken over
    verbatim; its header is shorter than 100 characters; and its full text
    is the header, a line feed and the text when the clause stands under a
    heading (or under the initial header General), and the text alone when
    the clause is a paragraph, whose header is then the first 50 characters
    of the text. *)
Theorem extract_clauses_quote_document U (text : pystr)
    (clauses : list (gmap string pyval)) :
  extract U text = Ok clauses ->
  Forall (fun clause =>
            exists header t,
              clause !! "header" = Some (VStr header)
              /\ clause !! "text" = Some (VStr t)
              /\ infix t (replace_crlf text)
              /\ len header < 100
              /\ (((header = lit "General"
                    \/ infix header (replace_crlf text))
                   /\ clause !! "full_text"
                      = Some (VStr (header ++ LF ++ t)))
                  \/ (header = preview t
                      /\ clause !! "full_text" = Some (VStr t))))
    clauses.
Proof.
  intros Hex. apply extract_quoted in Hex.
  eapply Forall_impl; [exact Hex|].
  intros clause (header & t & H1 & H2 & H3 & H4).
  exists header, t. split; [done|]. split; [done|]. split; [done|].
  destruct H4 as [[[->|[Hh Hl]] Hf]|[-> Hf]].
  - split; [done|]. left. split; [by left | done].
  - split; [done|]. left. split; [by right | done].
  - split; [apply preview_short|]. by right.
Qed.

Lemma extract_clauses_quote_document_witness :
  Forall (fun clause =>
            exists header t,
              clause !! "header" = Some (VStr header)
              /\ clause !! "text" = Some (VStr t)
              /\ infix t (replace_crlf Examples.sectioned_text)
              /\ len header < 100
              /\ (((header = lit "General"
                    \/ infix header (replace_crlf Examples.sectioned_text))
                   /\ clause !! "full_text"
                      = Some (VStr (header ++ LF ++ t)))
                  \/ (header = preview t
                      /\ clause !! "full_text" = Some (VStr t))))
    Examples.sectioned_clauses.
Proof.
  apply (extract_clauses_quote_document ascii_tables Examples.sectioned_text
           Examples.sectioned_clauses).
  vm_cast_no_check (eq_refl (Ok Examples.sectioned_clauses)).
Defined.

Lemma numbered_sections_headings U (sections : list (option pystr)) :
  forall header clauses out,
  header = lit "General" \/ is_heading U header = true ->
  Forall (fun clause =>
            exists h t,
              clause !! "header" = Some (VStr h)
              /\ clause !! "text" = Some (VStr t)
              /\ (h = lit "General" \/ is_heading U h = true)
              /\ is_heading U t = false) clauses ->
  numbered_sections_loop U sections header clauses = Ok out ->
  Forall (fun clause =>
            exists h t,
              clause !! "header" = Some (VStr h)
              /\ clause !! "text" = Some (VStr t)
              /\ (h = lit "General" \/ is_heading U h = true)
              /\ is_heading U t = false) out.
Proof.
  induction sections as [|piece sections IH];
    intros header clauses out Hh Hq; [by intros [= <-]|].
  destruct piece as [[|c s]|]; cbn [numbered_sections_loop];
    [by apply IH | | by apply IH].
  destruct (strip (c :: s)) as [|x part] eqn:Hs.
  { change (len (@nil N) <? 100) with true. by cbv iota. }
  assert (Hnew : is_heading U (x :: part) = false ->
                 Forall (fun clause =>
                           exists h t,
                             clause !! "header" = Some (VStr h)
                             /\ clause !! "text" = Some (VStr t)
                             /\ (h = lit "General" \/ is_heading U h = true)
                             /\ is_heading U t = false)
                   (clauses ++ [new_clause header (x :: part)
                                  (header ++ LF ++ x :: part)])).
  { intros Hno. apply Forall_app. split; [done|]. apply Forall_singleton.
    exists header, (x :: part). unfold new_clause.
    split; [rewrite !lookup_insert_ne by done; by rewrite lookup_insert_eq|].
    split; [rewrite lookup_insert_ne by done; by rewrite lookup_insert_eq|].
    done. }
  unfold is_heading in Hnew at 1. unfold is_heading in IH at 1.
  destruct (len (x :: part) <? 100) eqn:Hlen.
  - destruct (isdigit U x || startswith (lower U (x :: part)) (lit "article"))
      eqn:Hd.
    + apply IH; [|done]. right. unfold is_heading. by rewrite Hlen, Hd.
    + destruct (20 <? len (x :: part)) eqn:H20; apply IH; auto.
  - destruct (20 <? len (x :: part)) eqn:H20; apply IH; auto.
Qed.

(** Which sections become clauses. In the list [_process_numbered_sections]
    returns, every clause stands under the header General or under
    a heading (a trimmed section shorter than 100 characters that begins
    with a digit or with the word article), and no clause text is itself
    such a section: a body shorter than 100 characters that begins with
    a digit is taken for a heading, not for a clause. *)
Theorem numbered_clause_is_no_heading U (sections : list (option pystr))
    (clauses : list (gmap string pyval)) :
  _process_numbered_sections U sections = Ok clauses ->
  Forall (fun clause =>
            exists header t,
              clause !! "header" = Some (VStr header)
              /\ clause !! "text" = Some (VStr t)
              /\ (header = lit "General" \/ is_heading U header = true)
              /\ is_heading U t = false) clauses.
Proof.
  apply numbered_sections_headings; [by left | done].
Qed.

Lemma numbered_clause_is_no_heading_witness :
  Forall (fun clause =>
            exists header t,
              clause !! "header" = Some (VStr header)
              /\ clause !! "text" = Some (VStr t)
              /\ (header = lit "General"
                  \/ is_heading ascii_tables header = true)
              /\ is_heading ascii_tables t = false) notice_clauses.
Proof.
  apply (numbered_clause_is_no_heading ascii_tables notice_sections
           notice_clauses).
  vm_cast_no_check (eq_refl (Ok notice_clauses)).
Defined.
End ExtractProvenance.

(** ** Contract type: ranking and confidence *)

Module ClassifierRanking.
Import ContractClassifier Confidence Ranking.
Local Open Scope Z_scope.

Lemma count_from_nonneg (p s : pystr) : forall skip, 0 <= count_from p s skip.
Proof.
  induction s as [|c s IH]; intros skip; simpl; [done|].
  destruct skip; [|apply IH].
  destruct (startswith _ _); [|apply IH].
  specialize (IH (length p - 1)%nat). lia.
Qed.

Lemma type_score_nonneg (text_lower : pystr) (keywords : list pystr) :
  0 <= type_score text_lower keywords.
Proof.
  unfold type_score.
  assert (H : forall z, 0 <= z ->
              0 <= fold_left (fun score keyword =>
                                score + count text_lower keyword) keywords z);
    [|by apply H].
  induction keywords as [|kw kws IH]; intros z Hz; simpl; [done|].
  apply IH. pose proof (count_from_nonneg kw text_lower 0). unfold count. lia.
Qed.

Lemma first_maximum_singleton (best : pystr * Z) : first_maximum [best] best.
Proof.
  exists 0%nat. split; [done|]. intros [|j] e He; [|done].
  injection He as <-. split; [lia | intros; lia].
Qed.

(** One step of [argmax]: the running best stays the first maximum. *)
Lemma first_maximum_snoc (pre : list (pystr * Z)) (best e : pystr * Z) :
  first_maximum pre best ->
  first_maximum (pre ++ [e]) (if snd best <? snd e then e else best).
Proof.
  intros (i & Hi & Hmax).
  pose proof (lookup_lt_Some _ _ _ Hi) as Hlt.
  destruct (Z.ltb_spec (snd best) (snd e)) as [Hlt'|Hge].
  - exists (length pre). split.
    + by rewrite lookup_app_r, Nat.sub_diag.
    + intros j e' He'. destruct (decide (j < length pre)%nat) as [Hj|Hj].
      * rewrite lookup_app_l in He' by done.
        destruct (Hmax j e' He') as [H1 _]. split; [lia | intros; lia].
      * rewrite lookup_app_r in He' by lia.
        destruct (j - length pre)%nat eqn:E; [|done].
        injection He' as <-. split; [lia | intros; lia].
  - exists i. split; [by rewrite lookup_app_l|].
    intros j e' He'. destruct (decide (j < length pre)%nat) as [Hj|Hj].
    + rewrite lookup_app_l in He' by done. by apply Hmax.
    + rewrite lookup_app_r in He' by lia.
      destruct (j - length pre)%nat eqn:E; [|done].
      injection He' as <-. split; [lia | intros; lia].
Qed.

Lemma argmax_first_maximum (scores : list (pystr * Z)) :
  forall pre best,
  first_maximum pre best ->
  first_maximum (pre ++ scores) (argmax best scores).
Proof.
  induction scores as [|[k v] scores IH]; intros pre best Hbest; simpl.
  - by rewrite app_nil_r.
  - rewrite (cons_middle (k, v)), app_assoc. apply IH.
    by apply (first_maximum_snoc pre best (k, v)).
Qed.

Lemma max_value_argmax (first : pystr * Z) (rest : list (pystr * Z)) :
  fold_left Z.max (map snd rest) (snd first) = snd (argmax first rest).
Proof.
  revert first; induction rest as [|[k v] rest IH]; intros first; simpl;
    [done|].
  rewrite <- IH. f_equal.
  destruct (Z.ltb_spec (snd first) v); simpl; lia.
Qed.

(** What [classify] computes, in one statement. *)
Lemma classify_outcome U (text : pystr) :
  let scores := type_scores U text in
  exists best,
    first_maximum scores best
    /\ classify U text
       = Ok (if 0 <? snd best then fst best else lit "general").
Proof.
  intros scores. unfold classify. fold (type_scores U text). fold scores.
  assert (Hne : exists first rest, scores = first :: rest).
  { unfold scores, type_scores, type_keywords. simpl. eauto. }
  destruct Hne as (first & rest & Hs). rewrite Hs.
  exists (argmax first rest). split.
  - apply (argmax_first_maximum rest [first] first).
    apply first_maximum_singleton.
  - unfold max_value, max_key. rewrite max_value_argmax.
    by destruct (0 <? _).
Qed.

(** [classify] does not raise. It returns ['general'] when no keyword of
    any contract type occurs in the text, and otherwise the contract type
    whose keywords occur most often, the first such type of the table
    when several tie. *)
Theorem classify_first_maximum U (text : pystr) :
  let scores := type_scores U text in
  (classify U text = Ok (lit "general")
   /\ Forall (fun kv => snd kv = 0) scores)
  \/ (exists ty v, classify U text = Ok ty
                   /\ 0 < v /\ first_maximum scores (ty, v)).
Proof.
  intros scores.
  destruct (classify_outcome U text) as ([ty v] & Hmax & Hc). fold scores in Hmax.
  simpl in Hc. destruct (Z.ltb_spec 0 v) as [Hv|Hv].
  - right. by exists ty, v.
  - left. split; [done|].
    apply Forall_lookup. intros j [k w] Hj.
    destruct Hmax as (i & _ & Hmax). destruct (Hmax j _ Hj) as [Hle _].
    simpl in *.
    assert (0 <= w); [|lia].
    unfold scores, type_scores in Hj. rewrite list_lookup_fmap in Hj.
    destruct (type_keywords !! j) as [e|]; [|done].
    injection Hj as _ <-. apply type_score_nonneg.
Qed.

Lemma sum_from (xs : list Z) : forall z, fold_left Z.add xs z = z + RiskScorer.sum xs.
Proof.
  unfold RiskScorer.sum.
  induction xs as [|x xs IH]; intros z; simpl; [lia|].
  rewrite (IH (z + x)), (IH (0 + x)). lia.
Qed.

Lemma sum_zero_iff (xs : list Z) :
  Forall (fun x => 0 <= x) xs ->
  (RiskScorer.sum xs = 0 <-> Forall (fun x => x = 0) xs)
  /\ 0 <= RiskScorer.sum xs.
Proof.
  induction 1 as [|x xs Hx _ [IH1 IH2]].
  - by repeat split.
  - unfold RiskScorer.sum in *. simpl. rewrite sum_from.
    unfold RiskScorer.sum. split; [|lia]. split.
    + intros H. constructor; [lia|]. apply IH1. lia.
    + intros [-> Hxs]%Forall_cons. apply IH1 in Hxs. lia.
Qed.

Lemma normalized_spec (total : Z) (scores : list (pystr * Z)) :
  total <> 0 ->
  normalized scores total
  = Ok (map (fun kv => (fst kv, PFloat (nearest_quotient (snd kv) total)))
          scores).
Proof.
  intros Ht. induction scores as [|[k v] scores IH]; simpl; [done|].
  unfold truediv. destruct (Z.eqb_spec total 0); [done|]. by rewrite IH.
Qed.

Lemma general_is_no_type :
  ~ In (lit "general") (map (fun entry => fst entry) type_keywords).
Proof.
  vm_compute. intros [H|[H|[H|[H|[H|[]]]]]]; discriminate H.
Qed.

(** [get_confidence] does not raise. When no keyword of any type occurs
    it returns the integer 0 for each of the five types, and that is
    exactly when [classify] returns ['general']; otherwise it returns, for
    each type in table order, the float nearest to its share of the
    keyword occurrences. *)
Theorem get_confidence_shares U (text : pystr) :
  let scores := type_scores U text in
  let total := RiskScorer.sum (map snd scores) in
  (total = 0
   /\ classify U text = Ok (lit "general")
   /\ get_confidence U text
      = Ok (map (fun entry => (fst entry, PInt 0)) type_keywords))
  \/ (0 < total
      /\ classify U text <> Ok (lit "general")
      /\ get_confidence U text
         = Ok (map (fun kv =>
                      (fst kv, PFloat (nearest_quotient (snd kv) total)))
                 scores)).
Proof.
  intros scores total.
  assert (Hnn : Forall (fun x => 0 <= x) (map snd scores)).
  { apply Forall_fmap, Forall_fmap, Forall_forall. intros e _. simpl.
    apply type_score_nonneg. }
  destruct (sum_zero_iff _ Hnn) as [Hiff Hge]. fold total in Hiff, Hge.
  rewrite Forall_fmap in Hiff.
  unfold get_confidence. fold scores. fold total.
  destruct (classify_outcome U text) as ([ty v] & Hmax & Hc).
  fold scores in Hmax. cbn [fst snd] in Hc.
  destruct Hmax as (i & Hi & Hmax).
  destruct (decide (total = 0)) as [Ht|Ht].
  - left. split; [done|].
    pose proof (proj1 Hiff Ht) as Hz.
    pose proof (proj1 (Forall_lookup _ _) Hz i _ Hi) as Hv. simpl in Hv.
    subst v. split; [done|].
    rewrite Ht. change (0 <? 0) with false. cbv iota. f_equal.
    unfold scores, type_scores.
    rewrite map_map. apply map_ext_in. intros e He. cbn [fst snd].
    f_equal. f_equal.
    rewrite Forall_forall in Hz.
    apply (Hz (fst e, type_score (lower U text) (snd e))).
    apply list_elem_of_In, in_map_iff. by exists e.
  - right. split; [lia|].
    assert (Hv : 0 < v).
    { destruct (Z.ltb_spec 0 v) as [|Hle]; [done|]. exfalso. apply Ht.
      apply Hiff, Forall_lookup. intros j [k w] Hj.
      destruct (Hmax j _ Hj) as [Hw _]. simpl in Hw |- *.
      assert (0 <= w); [|lia].
      unfold scores, type_scores in Hj. rewrite list_lookup_fmap in Hj.
      destruct (type_keywords !! j) as [e|]; [|done].
      injection Hj as _ <-. apply type_score_nonneg. }
    apply Z.ltb_lt in Hv as Hv'. rewrite Hv' in Hc. split.
    + rewrite Hc. intros [= ->].
      apply list_elem_of_lookup_2, list_elem_of_In in Hi.
      apply (in_map fst) in Hi. unfold scores, type_scores in Hi.
      rewrite map_map in Hi. by apply general_is_no_type in Hi.
    + assert (Hpos : 0 < total) by lia.
      apply Z.ltb_lt in Hpos as Hpos'. rewrite Hpos'.
      apply normalized_spec. lia.
Qed.
End ClassifierRanking.

(** ** The pattern engine: what a score is made of *)

Module ScoreClauseStructure.
Import RiskScorer ScoredStore FiringVectors ScoreClauseFacts.
Local Open Scope Z_scope.

Lemma scan_total (cl : pystr) (ps : list (pystr * risk_pattern)) :
  forall acc,
  fst (fold_left (scan_pattern cl) ps acc)
  = fst acc + total_weight (List.filter (fired cl) ps).
Proof.
  induction ps as [|e ps IH]; intros acc; simpl; [lia|].
  rewrite IH, scan_pattern_score. unfold fired at 2.
  destruct (any_in _ _); simpl; lia.
Qed.

Lemma keys_of_filter {A B} (f : A * B -> bool) (ps : list (A * B)) :
  NoDup (map fst ps) -> NoDup (map fst (List.filter f ps)).
Proof.
  induction ps as [|e ps IH]; simpl; [done|].
  intros [Hn Hd]%NoDup_cons. destruct (f e); simpl; [|by apply IH].
  apply NoDup_cons. split; [|by apply IH].
  intros Hin. apply Hn. apply list_elem_of_In in Hin.
  apply list_elem_of_In. apply in_map_iff in Hin as (x & Hx & Hin).
  apply in_map_iff. exists x. split; [done|].
  by apply filter_In in Hin as [Hin _].
Qed.

(** The score is additive: it is the sum of the weights of all the
    patterns that fire, cut at 100; the flags are those of the fired
    patterns of weight 25 or more, in table order, and no pattern is
    flagged twice. *)
Theorem score_clause_additive U (clause_text contract_type : pystr) :
  let r := score_clause U clause_text contract_type in
  let cl := lower U clause_text in
  score r = Z.min (total_weight (List.filter (fired cl) _get_risk_patterns)) 100
  /\ map flag_type (flags r)
     = map fst (List.filter (fun e => fired cl e && high_impact e)
                  _get_risk_patterns)
  /\ NoDup (map flag_type (flags r)).
Proof.
  intros r cl. subst r.
  assert (Hf : map flag_type (flags (score_clause U clause_text contract_type))
               = map fst (List.filter (fun e => fired cl e && high_impact e)
                            _get_risk_patterns)).
  { rewrite score_clause_flags, map_map. by apply map_ext. }
  split; [|split; [done|]].
  - rewrite score_clause_score, scan_total. simpl. f_equal.
  - rewrite Hf. apply keys_of_filter. by vm_compute; repeat constructor;
      rewrite ?list_elem_of_In; simpl; intuition discriminate.
Qed.

Lemma scan_vector_fold (cl : pystr) (ps : list (pystr * risk_pattern)) :
  forall acc,
  fold_left (scan_pattern cl) ps acc = scan_vector ps (map (fired cl) ps) acc.
Proof.
  induction ps as [|[name info] ps IH]; intros [s f]; [done|].
  cbn [fold_left map scan_vector]. by rewrite IH.
Qed.

Lemma all_vectors_complete (bs : list bool) : In bs (all_vectors (length bs)).
Proof.
  induction bs as [|b bs IH]; simpl; [by left|].
  apply in_flat_map. exists bs. split; [done|].
  destruct b; simpl; tauto.
Qed.

Lemma table_length : length _get_risk_patterns = 9%nat.
Proof. vm_compute. reflexivity. Qed.

Lemma verdict_all : forallb verdict (all_vectors 9) = true.
Proof. vm_compute. reflexivity. Qed.

Lemma count_true_fired (cl : pystr) (ps : list (pystr * risk_pattern)) :
  count_true (map (fired cl) ps) = length (List.filter (fired cl) ps).
Proof.
  unfold count_true. induction ps as [|e ps IH]; simpl; [done|].
  destruct (fired cl e); simpl; by rewrite IH.
Qed.

Lemma verdict_unfold (bs : list bool) :
  verdict bs
  = verdict_of (scan_vector _get_risk_patterns bs (0, [])) (count_true bs).
Proof. reflexivity. Qed.

(** The verdict holds of the firing vector of every text. *)
Lemma verdict_fired (cl : pystr) :
  verdict (map (fired cl) _get_risk_patterns) = true.
Proof.
  pose proof verdict_all as Hall. rewrite forallb_forall in Hall.
  apply Hall.
  pose proof (all_vectors_complete (map (fired cl) _get_risk_patterns))
    as Hin.
  by rewrite length_map, table_length in Hin.
Qed.

Lemma verdict_scan (cl : pystr) (s : Z) (f : list flag) :
  fold_left (scan_pattern cl) _get_risk_patterns (0, []) = (s, f) ->
  (Z.min s 100 < 40 \/ (1 <= length f)%nat)
  /\ (Z.min s 100 < 70
      \/ (2 <= length (List.filter (fired cl) _get_risk_patterns))%nat).
Proof.
  intros Hs. pose proof (verdict_fired cl) as Hv.
  rewrite verdict_unfold in Hv.
  rewrite <- scan_vector_fold, count_true_fired, Hs in Hv.
  unfold verdict_of in Hv. cbn [fst snd] in Hv.
  apply andb_true_iff in Hv as [H1 H2].
  apply orb_true_iff in H1. apply orb_true_iff in H2.
  rewrite Z.ltb_lt, Nat.leb_le in H1. rewrite Z.ltb_lt, Nat.leb_le in H2.
  done.
Qed.

(** No single pattern makes a clause high, and every clause that is not
    low carries a flag: a clause of level medium or high has at least one
    flag, and a clause of level high fires at least two patterns. *)
Theorem risky_clause_is_flagged U (clause_text contract_type : pystr) :
  let r := score_clause U clause_text contract_type in
  (level r <> low -> (1 <= length (flags r))%nat)
  /\ (level r = high ->
      (2 <= length (List.filter (fired (lower U clause_text))
                      _get_risk_patterns))%nat).
Proof.
  intros r. subst r. unfold score_clause.
  destruct (fold_left (scan_pattern (lower U clause_text))
              _get_risk_patterns (0, [])) as [s f] eqn:Hs.
  apply verdict_scan in Hs as [H1 H2]. cbn [score level flags].
  unfold level_of, ge_int, HIGH_RISK_THRESHOLD, MEDIUM_RISK_THRESHOLD.
  destruct (Z.leb_spec 70 (Z.min s 100));
    [|destruct (Z.leb_spec 40 (Z.min s 100))].
  - split; intros _; [destruct H1 | destruct H2]; (done || lia).
  - split; [|done]. intros _. destruct H1; (done || lia).
  - by split.
Qed.
End ScoreClauseStructure.

(** ** Running [score_contract]: again, on a bad clause, after [extract] *)

Module ScoreContractRuns.
Import RiskScorer ScoredStore ScoreContractFacts Examples PipelineExamples.
Import ClauseExtractor ExtractedClause Provenance ExtractProvenance.
Local Open Scope Z_scope.

Section Runs.
Context (U : UnicodeData) (contract_type : pystr).

Local Abbreviation annotate := (ScoredStore.annotate U contract_type).
Local Abbreviation annotated := (ScoredStore.annotated U contract_type).
Local Abbreviation risk_of := (fun t => score_clause U t contract_type).

Lemma text_of_foldl_annotate vs h v :
  text_of (foldl annotate h vs) v = text_of h v.
Proof.
  revert h; induction vs as [|v' vs IH]; intros h; simpl; [done|].
  by rewrite IH, text_of_annotate.
Qed.

Lemma foldl_annotate_idemp vs h :
  foldl annotate (foldl annotate h vs) vs = foldl annotate h vs.
Proof.
  apply map_eq. intros l. rewrite !lookup_foldl_annotate.
  case_decide; [|done]. destruct (h !! l); simpl; [|done].
  by rewrite annotated_idemp.
Qed.

(** A texted clause list stays one when its clauses are scored. *)
Lemma clause_list_scored h clauses vs texts :
  clause_list h clauses vs texts ->
  clause_list (foldl annotate h vs) clauses vs texts.
Proof.
  intros (l & -> & Hl & Hall). exists l. split; [done|]. split.
  - rewrite lookup_foldl_annotate, Hl. case_decide as Hin; [|done].
    apply list_elem_of_lookup_1 in Hin as [i Hi].
    destruct (Forall2_lookup_l _ _ _ _ _ Hall Hi) as (t & _ & Ht).
    unfold text_of in Ht. by rewrite Hl in Ht.
  - eapply Forall2_impl; [exact Hall|].
    intros v t Hv. by rewrite text_of_foldl_annotate.
Qed.

(** The loop on a list that begins with texted clauses. *)
Lemma score_each_app vs texts more :
  forall h scores fl,
  Forall2 (fun v t => text_of h v = Some t) vs texts ->
  score_each U contract_type (vs ++ more) scores fl h
  = score_each U contract_type more
      (scores ++ map (fun t => score (risk_of t)) texts)
      (fl ++ concat (map (fun t => high_flags (risk_of t)) texts))
      (foldl annotate h vs).
Proof.
  revert texts; induction vs as [|v vs IH]; intros texts h scores fl Hall.
  - apply Forall2_nil_inv_l in Hall as ->. simpl. by rewrite !app_nil_r.
  - apply Forall2_cons_inv_l in Hall as (t & texts' & Ht & Hall & ->).
    rewrite <- app_comm_cons, (score_each_step _ _ _ _ t) by done.
    rewrite (IH texts').
    + simpl. by rewrite <- !app_assoc.
    + eapply Forall2_impl; [exact Hall|].
      intros v' t' Hv'. by rewrite text_of_annotate.
Qed.
End Runs.

(** Scoring is idempotent: a second run on the store the first run left
    returns the same report and leaves the store as it is. *)
Theorem score_contract_idempotent U (contract_type : pystr)
    (h : gmap loc pyobj) (clauses : pyval) (vs : list pyval)
    (texts : list pystr) :
  clause_list h clauses vs texts ->
  exists r h',
    score_contract U contract_type clauses h = Ok (r, h')
    /\ score_contract U contract_type clauses h' = Ok (r, h').
Proof.
  intros Hcl. eexists _, _. split; [by apply score_contract_spec|].
  rewrite (score_contract_spec U contract_type _ clauses vs texts)
    by by apply clause_list_scored.
  by rewrite foldl_annotate_idemp.
Qed.

Lemma score_contract_idempotent_witness :
  exists r h',
    score_contract ascii_tables (lit "service") (VRef 0%nat) store_four
    = Ok (r, h')
    /\ score_contract ascii_tables (lit "service") (VRef 0%nat) h'
       = Ok (r, h').
Proof.
  apply (score_contract_idempotent ascii_tables (lit "service") store_four
           (VRef 0%nat) clauses_four texts_four).
  exists 0%nat. split; [reflexivity|]. split; [reflexivity|].
  repeat constructor.
Defined.

Lemma score_each_ignores_type U (type1 type2 : pystr) (vs : list pyval) :
  forall scores fl h,
  score_each U type1 vs scores fl h = score_each U type2 vs scores fl h.
Proof.
  induction vs as [|v vs IH]; intros scores fl h; [done|].
  cbn [score_each]. unfold bind.
  destruct (getitem v "text" h) as [[x h1]|]; [|done].
  change (score_clause_value U x type2) with (score_clause_value U x type1).
  destruct (score_clause_value U x type1 h1) as [[r h2]|]; [|done].
  destruct (setitem v "risk_score" _ h2) as [[[] h3]|]; [|done].
  destruct (setitem v "risk_level" _ h3) as [[[] h4]|]; [|done].
  apply IH.
Qed.

(** The contract type plays no part in the scores: whatever type is
    passed, a clause gets the same result and a contract the same report
    and the same store. *)
Theorem contract_type_is_ignored U (type1 type2 : pystr) :
  (forall clause_text,
     score_clause U clause_text type1 = score_clause U clause_text type2)
  /\ (forall clauses (h : gmap loc pyobj),
        score_contract U type1 clauses h = score_contract U type2 clauses h).
Proof.
  split; [done|]. intros clauses h. unfold score_contract, bind.
  destruct (elements clauses h) as [[cs h1]|]; [|done].
  by rewrite (score_each_ignores_type U type1 type2).
Qed.

(** A clause without a usable text stops the run. When the clauses before
    it have a string as their text and it is a dict, the run raises
    [KeyError] when its ['text'] is missing; [TypeError] when its text is
    a bytes, which has [lower] but cannot be searched for a string
    keyword; and [AttributeError] when its text is any other value that is
    not a string, which has no [lower]. *)
Theorem score_contract_bad_clause U (contract_type : pystr)
    (h : gmap loc pyobj) (lc : loc) (vs : list pyval) (texts : list pystr)
    (l : loc) (d : gmap string pyval) (rest : list pyval) :
  h !! lc = Some (OList (vs ++ VRef l :: rest)) ->
  Forall2 (fun v t => text_of h v = Some t) vs texts ->
  h !! l = Some (ODict d) ->
  text_of h (VRef l) = None ->
  (d !! "text" = None
   /\ score_contract U contract_type (VRef lc) h = Raise KeyError)
  \/ ((exists b, d !! "text" = Some (VBytes b))
      /\ score_contract U contract_type (VRef lc) h = Raise TypeError)
  \/ ((exists x, d !! "text" = Some x /\ has_lower x = false)
      /\ score_contract U contract_type (VRef lc) h = Raise AttributeError).
Proof.
  intros Hlc Hall Hl Hnone.
  assert (Hl' : foldl (ScoredStore.annotate U contract_type) h vs !! l
                = Some (ODict d)).
  { rewrite lookup_foldl_annotate, Hl. case_decide; [|done]. simpl.
    unfold text_of in Hnone. rewrite Hl in Hnone.
    by destruct (d !! "text") as [[]|]. }
  assert (Hrun : score_contract U contract_type (VRef lc) h
                 = Raise (match d !! "text" with
                          | None => KeyError
                          | Some (VBytes _) => TypeError
                          | Some _ => AttributeError
                          end)).
  { unfold score_contract, bind at 1, elements. rewrite Hlc.
    unfold bind at 1.
    rewrite (score_each_app U contract_type vs texts) by done.
    cbn [score_each]. unfold bind at 1, getitem. rewrite Hl'.
    unfold text_of in Hnone. rewrite Hl in Hnone.
    destruct (d !! "text") as [x|] eqn:Hx; [|done].
    destruct x; (done || reflexivity). }
  rewrite Hrun. unfold text_of in Hnone. rewrite Hl in Hnone.
  destruct (d !! "text") as [x|]; [|left; by split].
  right. destruct x; try done.
  - right. split; [by eexists|done].
  - right. split; [by eexists|done].
  - right. split; [by eexists|done].
  - right. split; [by eexists|done].
  - left. split; [by eexists|done].
  - right. split; [by eexists|done].
Qed.

Lemma score_contract_bad_clause_witness :
  (bytes_clause !! "text" = None
   /\ score_contract ascii_tables (lit "service") (VRef 0%nat) store_bytes
      = Raise KeyError)
  \/ ((exists b, bytes_clause !! "text" = Some (VBytes b))
      /\ score_contract ascii_tables (lit "service") (VRef 0%nat) store_bytes
         = Raise TypeError)
  \/ ((exists x, bytes_clause !! "text" = Some x /\ has_lower x = false)
      /\ score_contract ascii_tables (lit "service") (VRef 0%nat)
           store_bytes
         = Raise AttributeError).
Proof.
  apply (score_contract_bad_clause ascii_tables (lit "service")
           store_bytes 0%nat [VRef 1%nat] [payment_text] 2%nat
           bytes_clause []).
  - reflexivity.
  - repeat constructor.
  - reflexivity.
  - reflexivity.
Defined.

(** The analysis pipeline: the clauses [extract] returns can be scored.
    When the store holds a list of dicts that have the texts of the
    clauses of a document (with whatever fields the analysis has added),
    [score_contract] does not raise; it counts the clauses of the
    document, scores each on its text and writes the score into its
    dict. *)
Theorem extracted_clauses_are_scored U (contract_type text : pystr)
    (extracted : list (gmap string pyval)) (h : gmap loc pyobj) (lc : loc)
    (vs : list pyval) :
  extract U text = Ok extracted ->
  h !! lc = Some (OList vs) ->
  Forall2 (fun v c => exists l d, v = VRef l /\ h !! l = Some (ODict d)
                                  /\ d !! "text" = c !! "text")
    vs extracted ->
  exists r h',
    score_contract U contract_type (VRef lc) h = Ok (r, h')
    /\ clause_count r = Z.of_nat (length extracted)
    /\ composite_score r
       = round (mean (map (fun c => score (score_clause U (field c "text")
                                             contract_type))
                        extracted)) 2
    /\ Forall2 (fun v c =>
                  exists l d', v = VRef l /\ h' !! l = Some (ODict d')
                    /\ d' !! "text" = c !! "text"
                    /\ d' !! "risk_score"
                       = Some (VInt (score (score_clause U (field c "text")
                                              contract_type))))
         vs extracted.
Proof.
  intros Hex Hlc Hall.
  apply extract_quoted in Hex.
  assert (Htexts : Forall2 (fun v t => text_of h v = Some t) vs
                     (map (fun c => field c "text") extracted)).
  { apply Forall2_fmap_r. apply Forall2_same_length_lookup_2;
      [by eapply Forall2_length|].
    intros i v c Hv Hc.
    destruct (Forall2_lookup_lr _ _ _ _ _ _ Hall Hv Hc)
      as (l & d & -> & Hl & Hd).
    destruct (proj1 (Forall_lookup _ _) Hex i c Hc)
      as (header & t & _ & Ht & _).
    unfold compose, text_of, field. by rewrite Hl, Hd, Ht. }
  assert (Hcl : clause_list h (VRef lc) vs
                  (map (fun c => field c "text") extracted)).
  { by exists lc. }
  eexists _, _.
  split; [by apply (score_contract_spec U contract_type _ _ _ _ Hcl)|].
  cbn [clause_count composite_score].
  split; [by rewrite (Forall2_length _ _ _ Hall)|].
  split; [by rewrite map_map|].
  apply Forall2_same_length_lookup_2; [by eapply Forall2_length|].
  intros i v c Hv Hc.
  destruct (Forall2_lookup_lr _ _ _ _ _ _ Hall Hv Hc)
    as (l & d & -> & Hl & Hd).
  destruct (proj1 (Forall_lookup _ _) Hex i c Hc)
    as (header & t & _ & Ht & _).
  exists l, (scored U contract_type d t).
  split; [done|]. split.
  - rewrite lookup_foldl_annotate, decide_True, Hl
      by by eapply list_elem_of_lookup_2.
    simpl. by rewrite Hd, Ht.
  - unfold field. rewrite Ht.
    split; [rewrite scored_text by done; by rewrite Hd|].
    apply scored_risk_score.
Qed.

Lemma extracted_clauses_are_scored_witness :
  exists r h',
    score_contract ascii_tables (lit "service") (VRef 0%nat) store_block
    = Ok (r, h')
    /\ clause_count r
       = Z.of_nat (length [paragraph_clause ascii_tables 0
                             (strip block_text)])
    /\ composite_score r
       = round (mean (map (fun c =>
                             score (score_clause ascii_tables
                                      (field c "text") (lit "service")))
                        [paragraph_clause ascii_tables 0
                           (strip block_text)])) 2
    /\ Forall2 (fun v c =>
                  exists l d', v = VRef l /\ h' !! l = Some (ODict d')
                    /\ d' !! "text" = c !! "text"
                    /\ d' !! "risk_score"
                       = Some (VInt (score (score_clause ascii_tables
                                              (field c "text")
                                              (lit "service")))))
         [VRef 1%nat]
         [paragraph_clause ascii_tables 0 (strip block_text)].
Proof.
  apply (extracted_clauses_are_scored ascii_tables (lit "service")
           block_text
           [paragraph_clause ascii_tables 0 (strip block_text)]
           store_block 0%nat [VRef 1%nat]).
  - reflexivity.
  - reflexivity.
  - constructor; [|constructor].
    exists 1%nat, analysed_block. split; [reflexivity|].
    split; reflexivity.
Defined.
End ScoreContractRuns.

(** ** Entities without duplicates *)

Module DeduplicateFacts.
Import EntityExtractor Entities.

Section Dedup.
Context (U : UnicodeData).

Lemma texted_key (e : gmap string pyval) :
  texted e = true ->
  lower_strip U (default (VStr []) (e !! "text")) = Ok (key U e).
Proof.
  unfold texted, key. by destruct (default (VStr []) (e !! "text")).
Qed.

Lemma untexted_raises (e : gmap string pyval) :
  texted e = false ->
  lower_strip U (default (VStr []) (e !! "text")) = Raise AttributeError.
Proof.
  unfold texted. by destruct (default (VStr []) (e !! "text")).
Qed.

Lemma deduplicate_loop_spec (entities : list (gmap string pyval)) :
  forall seen acc,
  forallb texted entities = true ->
  exists kept,
    deduplicate_loop U entities seen acc = Ok (acc ++ kept)
    /\ sublist kept entities
    /\ NoDup (map (key U) kept)
    /\ Forall (fun e => key_truthy (key U e) = true /\ key U e ∉ seen) kept
    /\ (forall e, e ∈ entities -> key_truthy (key U e) = true ->
          key U e ∉ seen -> key U e ∈ map (key U) kept)
    /\ (forall pre e post, entities = pre ++ e :: post ->
          key_truthy (key U e) = true -> key U e ∉ seen ->
          Forall (fun e' => key U e' <> key U e) pre -> e ∈ kept).
Proof.
  induction entities as [|e rest IH]; intros seen acc Ht.
  - exists []. rewrite app_nil_r. split; [done|]. split; [done|].
    split; [constructor|]. split; [done|]. split.
    + by intros e He%elem_of_nil.
    + intros [|] ? ? [=].
  - simpl in Ht. apply andb_true_iff in Ht as [He Ht].
    cbn [deduplicate_loop]. rewrite (texted_key e He).
    destruct (key_truthy (key U e) && bool_decide (key U e ∉ seen)) eqn:Hc.
    + apply andb_true_iff in Hc as [Hne Hns].
      apply bool_decide_eq_true in Hns.
      destruct (IH ({[key U e]} ∪ seen) (acc ++ [e]) Ht)
        as (kept & Hr & Hsub & Hnd & Hall & Hcov & Hfirst).
      exists (e :: kept). rewrite Hr, <- app_assoc.
      split; [done|]. split; [by apply sublist_skip|].
      split; [|split; [|split]].
      * simpl. apply NoDup_cons. split; [|done].
        intros (x & Hx & Hin)%list_elem_of_fmap.
        apply (proj1 (Forall_forall _ _) Hall) in Hin as [_ Hin].
        apply Hin. rewrite <- Hx. set_solver.
      * constructor; [done|]. eapply Forall_impl; [exact Hall|].
        intros x [? ?]. split; [done | set_solver].
      * intros x Hx Hxe Hxs. simpl.
        destruct (decide (key U x = key U e)) as [->|Hd]; [by left|].
        right. apply Hcov; [|done|].
        -- destruct (proj1 (elem_of_cons _ _ _) Hx) as [->|Hx']; done.
        -- rewrite elem_of_union, elem_of_singleton. tauto.
      * intros [|p pre] x post [= Hx Hrest] Hxe Hxs Hpre.
        -- subst x. by left.
        -- subst p. apply Forall_cons in Hpre as [Hp Hpre].
           right. apply (Hfirst pre x post); [done..| |done].
           rewrite elem_of_union, elem_of_singleton. intros [?|?]; eauto.
    + destruct (IH seen acc Ht)
        as (kept & Hr & Hsub & Hnd & Hall & Hcov & Hfirst).
      assert (Hskip : key_truthy (key U e) = false \/ key U e ∈ seen).
      { apply andb_false_iff in Hc as [Hc|Hc]; [by left|].
        right. apply bool_decide_eq_false in Hc.
        by destruct (decide (key U e ∈ seen)). }
      exists kept. split; [done|]. split; [by apply sublist_cons|].
      split; [done|]. split; [done|]. split.
      * intros x Hx Hxe Hxs. apply Hcov; [|done..].
        destruct (proj1 (elem_of_cons _ _ _) Hx) as [->|Hx']; [|done].
        destruct Hskip; congruence.
      * intros [|p pre] x post [= Hx Hrest] Hxe Hxs Hpre.
        -- subst x. destruct Hskip; congruence.
        -- apply Forall_cons in Hpre as [Hp Hpre].
           by apply (Hfirst pre x post).
Qed.

Lemma deduplicate_loop_raises (entities : list (gmap string pyval)) :
  forall seen acc,
  forallb texted entities = false ->
  deduplicate_loop U entities seen acc = Raise AttributeError.
Proof.
  induction entities as [|e rest IH]; intros seen acc Ht; [done|].
  simpl in Ht. cbn [deduplicate_loop].
  destruct (texted e) eqn:He.
  - rewrite (texted_key e He). simpl in Ht. destruct (_ && _); by apply IH.
  - by rewrite (untexted_raises e He).
Qed.

(** A list without duplicates goes through the loop as it is. *)
Lemma deduplicate_loop_unique (entities : list (gmap string pyval)) :
  forall seen acc,
  forallb texted entities = true ->
  NoDup (map (key U) entities) ->
  Forall (fun e => key_truthy (key U e) = true /\ key U e ∉ seen) entities ->
  deduplicate_loop U entities seen acc = Ok (acc ++ entities).
Proof.
  induction entities as [|e rest IH]; intros seen acc Ht Hnd Hall.
  - by rewrite app_nil_r.
  - simpl in Ht. apply andb_true_iff in Ht as [He Ht].
    simpl in Hnd. apply NoDup_cons in Hnd as [Hne Hnd].
    apply Forall_cons in Hall as [[Hk Hs] Hall].
    cbn [deduplicate_loop]. rewrite (texted_key e He), Hk.
    rewrite bool_decide_eq_true_2 by done.
    simpl. rewrite IH, <- app_assoc; [done..|].
    apply Forall_forall. intros x Hx.
    apply (proj1 (Forall_forall _ _) Hall) in Hx as Hx'.
    destruct Hx' as [? ?]. split; [done|].
    rewrite elem_of_union, elem_of_singleton. intros [Heq|?]; [|done].
    apply Hne. rewrite <- Heq. by apply list_elem_of_fmap_2.
Qed.
End Dedup.

Lemma sublist_texted (kept entities : list (gmap string pyval)) :
  sublist kept entities ->
  forallb texted entities = true -> forallb texted kept = true.
Proof.
  intros Hsub Ht. apply forallb_forall. intros x Hx.
  rewrite forallb_forall in Ht. apply Ht.
  apply list_elem_of_In. apply list_elem_of_In in Hx.
  by eapply elem_of_sublist.
Qed.

(** What [_deduplicate_entities] returns. It raises [AttributeError] when
    some entity has a text that is neither a string nor a bytes (a number,
    [None], a list: a value without [lower]). Otherwise it returns the
    entities it keeps in their order: no two of them have the same text up
    to case and surrounding space, none has a blank text, every text that
    is not blank is still there, and of the entities with the same text the
    first one is kept. Texts that are bytes are compared in the same way,
    among themselves: a bytes is never the same text as a string. *)
Theorem deduplicate_entities_spec U (entities : list (gmap string pyval)) :
  (forallb texted entities = false
   /\ _deduplicate_entities U entities = Raise AttributeError)
  \/ (forallb texted entities = true
      /\ exists unique,
           _deduplicate_entities U entities = Ok unique
           /\ sublist unique entities
           /\ NoDup (map (key U) unique)
           /\ Forall (fun e => key_truthy (key U e) = true) unique
           /\ (forall e, e ∈ entities -> key_truthy (key U e) = true ->
                 key U e ∈ map (key U) unique)
           /\ (forall pre e post, entities = pre ++ e :: post ->
                 key_truthy (key U e) = true ->
                 Forall (fun e' => key U e' <> key U e) pre ->
                 e ∈ unique)).
Proof.
  destruct (forallb texted entities) eqn:Ht.
  - right. split; [done|].
    destruct (deduplicate_loop_spec U entities ∅ [] Ht)
      as (kept & Hr & Hsub & Hnd & Hall & Hcov & Hfirst).
    exists kept. split; [done|]. split; [done|]. split; [done|].
    split; [|split].
    + eapply Forall_impl; [exact Hall|]. by intros x [? _].
    + intros e He Hk. apply Hcov; [done..|set_solver].
    + intros pre e post Hl Hk Hpre.
      apply (Hfirst pre e post); [done..|set_solver|done].
  - left. split; [done|]. by apply deduplicate_loop_raises.
Qed.

(** Removing duplicates once is enough: a list [_deduplicate_entities] has
    returned comes back as it is. *)
Theorem deduplicate_entities_idempotent U
    (entities unique : list (gmap string pyval)) :
  _deduplicate_entities U entities = Ok unique ->
  _deduplicate_entities U unique = Ok unique.
Proof.
  intros Hr. destruct (forallb texted entities) eqn:Ht.
  - destruct (deduplicate_loop_spec U entities ∅ [] Ht)
      as (kept & Hr' & Hsub & Hnd & Hall & _).
    unfold _deduplicate_entities in Hr. rewrite Hr' in Hr.
    injection Hr as <-.
    apply (deduplicate_loop_unique U kept ∅ []); [|done..].
    by eapply sublist_texted.
  - unfold _deduplicate_entities in Hr.
    by rewrite deduplicate_loop_raises in Hr.
Qed.

Lemma deduplicate_entities_idempotent_witness :
  _deduplicate_entities ascii_tables mentions_unique = Ok mentions_unique.
Proof.
  apply (deduplicate_entities_idempotent ascii_tables mentions
           mentions_unique).
  vm_compute. reflexivity.
Defined.

(** Texts that are bytes: the second mention is the first one but for case
    and space and is dropped; the string with the same letters is another
    text and is kept. *)
Lemma bytes_are_deduplicated :
  _deduplicate_entities ascii_tables byte_mentions
  = Ok [<["text" := VBytes (list_byte_of_string "Delhi")]> ∅;
        <["text" := VStr (lit "delhi")]> ∅].
Proof. vm_compute. reflexivity. Qed.
End DeduplicateFacts.

(** ** Which files may be uploaded *)

Module UploadFacts.
Import Upload.

Lemma split_last_dot_none (s : pystr) :
  split_last_dot s = None <-> DOT ∉ s.
Proof.
  induction s as [|c s IH]; simpl.
  - split; [intros _; by apply not_elem_of_nil | done].
  - destruct (split_last_dot s) as [[b a]|].
    + split; [done|]. intros Hn. exfalso.
      assert (Hs : DOT ∉ s) by (intros ?; apply Hn; by right).
      by apply IH in Hs.
    + destruct (N.eqb_spec c DOT) as [->|Hc].
      * split; [done|]. intros Hn. exfalso. apply Hn. by left.
      * split; [|done]. intros _ [?|Hin]%elem_of_cons; [done|].
        by apply (proj1 IH).
Qed.

Lemma split_last_dot_some (s before after : pystr) :
  split_last_dot s = Some (before, after)
  <-> s = before ++ DOT :: after /\ DOT ∉ after.
Proof.
  revert before; induction s as [|c s IH]; intros before; simpl.
  - split; [done|]. intros [H _]. by destruct before.
  - destruct (split_last_dot s) as [[b a]|] eqn:Hs.
    + split.
      * intros [= <- <-]. destruct (proj1 (IH b) eq_refl) as [-> Ha]. done.
      * intros [H Ha]. destruct before as [|x before]; simpl in H.
        -- injection H as -> ->. apply split_last_dot_none in Ha.
           congruence.
        -- injection H as -> ->.
           assert (Hb : Some (b, a) = Some (before, after)).
           { apply IH. done. }
           by injection Hb as -> ->.
    + apply split_last_dot_none in Hs.
      destruct (N.eqb_spec c DOT) as [->|Hc].
      * split.
        -- by intros [= <- <-].
        -- intros [H Ha]. destruct before as [|x before]; simpl in H.
           ++ by injection H as ->.
           ++ injection H as <- ->. exfalso. apply Hs.
              apply elem_of_app. right. by left.
      * split; [done|]. intros [H Ha].
        destruct before as [|x before]; simpl in H.
        -- injection H as -> ->. done.
        -- injection H as -> ->. exfalso. apply Hs.
           apply elem_of_app. right. by left.
Qed.

Lemma contains_dot (s : pystr) : contains [DOT] s = true <-> DOT ∈ s.
Proof.
  rewrite contains_spec. split.
  - intros (a & b & ->). apply elem_of_app. right. by left.
  - intros (a & b & ->)%list_elem_of_split. by exists a, b.
Qed.

(** [allowed_file] never raises, and it accepts exactly the names whose
    last dot is followed by pdf, docx or txt in any case: the file has
    a stem, which may be empty, and an extension without a dot. *)
Theorem allowed_file_extension U (filename : pystr) :
  exists b,
    allowed_file U filename = Ok b
    /\ (b = true
        <-> exists stem ext,
              filename = stem ++ DOT :: ext /\ (DOT ∉ ext)
              /\ (lower U ext = lit "pdf" \/ lower U ext = lit "docx"
                  \/ lower U ext = lit "txt")).
Proof.
  assert (Hset : forall ext,
            lower U ext ∈ ALLOWED_EXTENSIONS
            <-> lower U ext = lit "pdf" \/ lower U ext = lit "docx"
                \/ lower U ext = lit "txt").
  { intros ext. unfold ALLOWED_EXTENSIONS.
    rewrite !elem_of_union, !elem_of_singleton. tauto. }
  unfold allowed_file. destruct (contains [DOT] filename) eqn:Hc.
  - apply contains_dot in Hc. unfold rsplit_dot.
    destruct (split_last_dot filename) as [[stem ext]|] eqn:Hs.
    + apply split_last_dot_some in Hs as [-> Hext].
      eexists. split; [reflexivity|].
      rewrite bool_decide_eq_true, Hset. split.
      * intros H. by exists stem, ext.
      * intros (stem' & ext' & Heq & Hext' & H).
        assert (Hsame : Some (stem, ext) = Some (stem', ext')).
        { rewrite <- (proj2 (split_last_dot_some (stem ++ DOT :: ext)
                               stem ext)) by done.
          by apply split_last_dot_some. }
        by injection Hsame as -> ->.
    + apply split_last_dot_none in Hs. done.
  - exists false. split; [done|]. split; [done|].
    intros (stem & ext & -> & _). exfalso.
    assert (H : contains [DOT] (stem ++ DOT :: ext) = true).
    { apply contains_dot, elem_of_app. right. by left. }
    congruence.
Qed.
End UploadFacts.

(** ** The lists read out of a reply *)

Module ExplainerFacts.
Import Explainer ReplyLists.

Section Lists.
Context (U : UnicodeData) (markers : list pystr).

(** Once the list is open, every line that is neither a marker line nor
    blank is an item. *)
Lemma items_after_open (lines : list pystr) : forall found,
  items_after U markers lines true found
  = found ++ map item (List.filter (item_line U markers) lines).
Proof.
  induction lines as [|line lines IH]; intros found;
    cbn [items_after List.filter map]; [by rewrite app_nil_r|].
  unfold item_line at 1, marker.
  destruct (any_in markers (lower U line)); cbn [negb andb]; [apply IH|].
  destruct (truthy (strip line)); [|apply IH].
  rewrite IH. cbn [map]. by rewrite <- app_assoc.
Qed.

(** Before the first marker line nothing is an item. *)
Lemma items_after_closed (lines : list pystr) : forall found,
  items_after U markers lines false found = found ++ listed U markers lines.
Proof.
  induction lines as [|line lines IH]; intros found;
    cbn [items_after]; [by rewrite app_nil_r|].
  unfold listed. cbn [dropwhile]. unfold marker at 1.
  destruct (any_in markers (lower U line)) eqn:Hm; cbn [negb andb].
  - rewrite items_after_open. cbn [List.filter].
    assert (item_line U markers line = false) as ->; [|done].
    unfold item_line, marker. by rewrite Hm.
  - apply IH.
Qed.
End Lists.

Lemma concern_lines_spec U (lines : list pystr) : forall concerns,
  concern_lines U lines concerns
  = concerns ++ map item (List.filter (concern_line U) lines).
Proof.
  induction lines as [|line lines IH]; intros concerns;
    cbn [concern_lines List.filter map]; [by rewrite app_nil_r|].
  unfold concern_line at 1.
  destruct (_ || _); [|apply IH].
  rewrite IH. cbn [map]. by rewrite <- app_assoc.
Qed.

(** The recommendations and the alternatives are read from the lines
    after the first line that mentions the marker (recommendation; or
    alternative, suggest), in any case: every such line that is not blank
    and does not mention the marker itself is an item, without its bullet.
    At most three recommendations and two alternatives are returned; the
    three standard recommendations stand in when no item is found, so
    there are one to three recommendations. *)
Theorem reply_lists_follow_marker U (text : pystr) :
  let recommended :=
    listed U [lit "recommendation"] (split_lines text) in
  let alternatives :=
    listed U [lit "alternative"; lit "suggest"] (split_lines text) in
  _extract_recommendations U text
  = (if bool_decide (recommended = []) then default_recommendations
     else firstn 3 recommended)
  /\ (1 <= length (_extract_recommendations U text) <= 3)%nat
  /\ _extract_alternatives U text = firstn 2 alternatives
  /\ (length (_extract_alternatives U text) <= 2)%nat.
Proof.
  intros recommended alternatives.
  unfold _extract_recommendations, _extract_alternatives.
  rewrite !items_after_closed. cbn [app].
  fold recommended alternatives.
  split; [|split; [|split; [done|]]].
  - by destruct recommended.
  - destruct recommended as [|r rest]; cbn [truthy_list].
    + unfold default_recommendations. cbn [length]. lia.
    + rewrite length_firstn. cbn [length]. lia.
  - rewrite length_firstn. lia.
Qed.

(** The concerns are the first three lines that mention a concern or
    a risk, in any case, each without its bullet. *)
Theorem extract_concerns_lines U (text : pystr) :
  _extract_concerns U text
  = firstn 3 (map item (List.filter (concern_line U) (split_lines text))).
Proof.
  unfold _extract_concerns. by rewrite concern_lines_spec.
Qed.
End ExplainerFacts.

(** ** What a parsed document holds *)

Module ParserFacts.
Import DocumentParser ParserExamples StripFacts.
Local Open Scope Z_scope.

(** Whatever the files hold, a document that is parsed with success has
    one of the three formats, and its text is trimmed. The text of a PDF
    has at least 100 characters and the text of a DOCX at least 10; the
    text of a text file has at least 10 characters when the file is read
    as UTF-8, and any length, none included, when the file is not UTF-8
    and is read as Latin-1. *)
Theorem parse_success_text (F : files) (filepath file_extension t : pystr) :
  parse F filepath file_extension = Success t ->
  strip t = t
  /\ ((file_extension = lit "pdf" /\ 100 <= len t)
      \/ (file_extension = lit "docx" /\ 10 <= len t)
      \/ (file_extension = lit "txt"
          /\ (10 <= len t \/ read_utf8 F filepath = DecodeError))).
Proof.
  unfold parse. repeat case_bool_decide; [| | |done].
  - unfold _parse_pdf. destruct (pdf_pages F filepath) as [pages|]; [|done].
    destruct (_ =? 0); [done|].
    destruct (Z.ltb_spec (len (strip (page_texts pages []))) 100); [done|].
    intros [= <-]. split; [apply strip_idemp|]. by left.
  - unfold _parse_docx.
    destruct (docx_paragraphs F filepath) as [paragraphs|]; [|done].
    destruct (Z.ltb_spec (len (strip (join (LF ++ LF)
                (List.filter (fun para => match strip para with
                                          | [] => false
                                          | _ :: _ => true
                                          end) paragraphs)))) 10); [done|].
    intros [= <-]. split; [apply strip_idemp|]. right. by left.
  - unfold _parse_txt. destruct (read_utf8 F filepath) as [text| |]; [| |done].
    + destruct (Z.ltb_spec (len (strip text)) 10); [done|].
      intros [= <-]. split; [apply strip_idemp|]. right. right. tauto.
    + destruct (read_latin1 F filepath) as [text|]; [|done].
      intros [= <-]. split; [apply strip_idemp|]. right. right. tauto.
Qed.

Lemma parse_success_text_witness :
  strip [0xFF%N] = [0xFF%N]
  /\ ((lit "txt" = lit "pdf" /\ 100 <= len [0xFF%N])
      \/ (lit "txt" = lit "docx" /\ 10 <= len [0xFF%N])
      \/ (lit "txt" = lit "txt"
          /\ (10 <= len [0xFF%N]
              \/ read_utf8 one_byte_file (lit "data/uploads/a.txt")
                 = DecodeError))).
Proof.
  apply (parse_success_text one_byte_file (lit "data/uploads/a.txt")
           (lit "txt") [0xFF%N]).
  reflexivity.
Defined.
End ParserFacts.
